(** * API-Documenter: a shallow embedding of the scanner, parser, AI analyzer
    and OpenAPI generator, with the properties of its specification. *)

From Stdlib Require Import List Bool Arith Lia String Ascii.
From Stdlib Require Import Sorting.Sorted Sorting.Permutation Sorting.Mergesort.
From Stdlib Require Import Structures.Orders Numbers.DecimalString.
#[local] Set Warnings "-register-all".
Import ListNotations.
Open Scope list_scope.
Open Scope string_scope.

(** ** String helpers mirroring the JavaScript builtins the code calls.
    Strings are byte strings; the repository only manipulates ASCII names. *)

Module JsString.

(** [String.prototype.toLowerCase] on ASCII characters. *)
Definition lower_char (c : ascii) : ascii :=
  let n := nat_of_ascii c in
  if ((65 <=? n) && (n <=? 90))%nat then ascii_of_nat (n + 32)%nat else c.

Fixpoint toLowerCase (s : string) : string :=
  match s with
  | EmptyString => EmptyString
  | String c r => String (lower_char c) (toLowerCase r)
  end.

(** [s.includes(p)]: [p] occurs in [s] at some position. *)
Fixpoint includes (s p : string) : bool :=
  prefix p s ||
  match s with
  | EmptyString => false
  | String _ r => includes r p
  end.

(** [s.startsWith(p)]. *)
Definition startsWith (s p : string) : bool := prefix p s.

(** [s.endsWith(p)]. *)
Definition endsWith (s p : string) : bool :=
  (String.length p <=? String.length s)%nat &&
  String.eqb (substring (String.length s - String.length p)%nat (String.length p) s) p.

(** [path.join(dir, name)] for a directory path without a trailing slash. *)
Definition join (dir name : string) : string := dir ++ "/" ++ name.

(** [String.prototype.toUpperCase] on ASCII characters. *)
Definition upper_char (c : ascii) : ascii :=
  let n := nat_of_ascii c in
  if ((97 <=? n) && (n <=? 122))%nat then ascii_of_nat (n - 32)%nat else c.

Fixpoint toUpperCase (s : string) : string :=
  match s with
  | EmptyString => EmptyString
  | String c r => String (upper_char c) (toUpperCase r)
  end.

(** [s.split(sep)] for a one-character separator. *)
Fixpoint split (sep : ascii) (s : string) : list string :=
  match s with
  | EmptyString => [EmptyString]
  | String c r =>
      let rest := split sep r in
      if Ascii.eqb c sep then EmptyString :: rest
      else match rest with
           | h :: t => String c h :: t
           | [] => [String c EmptyString]
           end
  end.

(** The white space [String.prototype.trim] removes, on ASCII. *)
Definition is_space (c : ascii) : bool :=
  let n := nat_of_ascii c in
  ((9 <=? n) && (n <=? 13))%nat || (n =? 32)%nat.

Fixpoint trimStart (s : string) : string :=
  match s with
  | String c r => if is_space c then trimStart r else s
  | EmptyString => EmptyString
  end.

Definition string_rev (s : string) : string :=
  string_of_list_ascii (rev (list_ascii_of_string s)).

Definition trim (s : string) : string :=
  string_rev (trimStart (string_rev (trimStart s))).

(** [arr.join(sep)]. *)
Fixpoint concat_with (sep : string) (l : list string) : string :=
  match l with
  | [] => EmptyString
  | [x] => x
  | x :: r => x ++ sep ++ concat_with sep r
  end.

(** [s.charAt(0).toUpperCase() + s.slice(1)]. *)
Definition capitalize (s : string) : string :=
  match s with
  | EmptyString => EmptyString
  | String c r => String (upper_char c) r
  end.

(** Decimal rendering of a non-negative integer, as string concatenation does. *)
Definition nat_to_string (n : nat) : string :=
  NilEmpty.string_of_uint (Nat.to_uint n).

End JsString.

Import JsString.

(** ** JavaScript values and exceptions *)

Module Js.

(** A JavaScript value as the code handles it: JSON data plus [undefined].
    An object lists its own properties in JavaScript's property order; the
    code only inserts keys that are not integer-like or integer keys in
    ascending order, so insertion order is that order. *)
Inductive json :=
| JUndef
| JNull
| JBool (b : bool)
| JNum (n : nat)
| JStr (s : string)
| JArr (xs : list json)
| JObj (fields : list (string * json)).

(** Truthiness, as [if (v)] and [v || d] test it. *)
Definition truthy (v : json) : bool :=
  match v with
  | JUndef | JNull => false
  | JBool b => b
  | JNum n => negb (n =? 0)%nat
  | JStr s => negb (String.eqb s EmptyString)
  | JArr _ | JObj _ => true
  end.

(** [a || b]. *)
Definition or (a b : json) : json := if truthy a then a else b.

Fixpoint assoc {A} (k : string) (l : list (string * A)) : option A :=
  match l with
  | [] => None
  | (k', v) :: r => if String.eqb k k' then Some v else assoc k r
  end.

(** [o.k] on a value that is not [null] or [undefined]; only objects have
    the keys the code reads. *)
Definition prop (v : json) (k : string) : json :=
  match v with
  | JObj fs => match assoc k fs with Some x => x | None => JUndef end
  | _ => JUndef
  end.

(** [o[k] = v] on an object: an existing key keeps its position. *)
Fixpoint set_field (k : string) (v : json) (fs : list (string * json)) : list (string * json) :=
  match fs with
  | [] => [(k, v)]
  | (k', v') :: r => if String.eqb k k' then (k, v) :: r else (k', v') :: set_field k v r
  end.

(** Escaping of [JSON.stringify] for the quote and the backslash. *)
Fixpoint escape (s : string) : string :=
  match s with
  | EmptyString => EmptyString
  | String c r =>
      if Ascii.eqb c "034"%char then String "\"%char (String c (escape r))
      else if Ascii.eqb c "\"%char then String "\"%char (String c (escape r))
      else String c (escape r)
  end.

Definition quote (s : string) : string := String "034"%char (escape s ++ String "034"%char EmptyString).

(** [JSON.stringify]: [None] for [undefined]; [undefined] properties are
    omitted and [undefined] array elements print as [null]. *)
Fixpoint stringify (v : json) : option string :=
  match v with
  | JUndef => None
  | JNull => Some "null"
  | JBool b => Some (if b then "true" else "false")
  | JNum n => Some (nat_to_string n)
  | JStr s => Some (quote s)
  | JArr xs =>
      Some ("[" ++ concat_with ","
              (map (fun x => match stringify x with Some t => t | None => "null" end) xs)
            ++ "]")
  | JObj fs =>
      Some ("{" ++ concat_with ","
              (flat_map (fun kv => match stringify (snd kv) with
                                   | Some t => [quote (fst kv) ++ ":" ++ t]
                                   | None => []
                                   end) fs)
            ++ "}")
  end.

(** [Object.entries(v)] for a truthy value. *)
Definition entries (v : json) : list (string * json) :=
  match v with
  | JObj fs => fs
  | JArr xs => combine (map nat_to_string (seq 0 (List.length xs))) xs
  | JStr s => combine (map nat_to_string (seq 0 (String.length s)))
                      (map (fun c => JStr (String c EmptyString)) (list_ascii_of_string s))
  | _ => []
  end.

(** [v[k1][k2]...] through nested objects. *)
Definition at_path (v : json) (ks : list string) : json := fold_left prop ks v.

(** An exception-raising computation. *)
Inductive result (A : Type) :=
| Ok (a : A)
| Throw (message : string).
Arguments Ok {A} a.
Arguments Throw {A} message.

Definition bind {A B} (m : result A) (k : A -> result B) : result B :=
  match m with
  | Ok a => k a
  | Throw e => Throw e
  end.

Notation "x <- m ;; k" := (bind m (fun x => k)) (at level 61, m at next level, right associativity).

(** [try { m } catch (error) { h(error.message) }]. *)
Definition try_catch {A} (m : result A) (h : string -> result A) : result A :=
  match m with
  | Ok a => Ok a
  | Throw e => h e
  end.

(** [o.k] where [o] may be [null] or [undefined] (a [TypeError]). *)
Definition get (v : json) (k : string) : result json :=
  match v with
  | JUndef | JNull => Throw ("Cannot read properties of null (reading '" ++ k ++ "')")
  | _ => Ok (prop v k)
  end.

End Js.

Import Js.

(** ** Scanner ([src/src/scanner/index.js]) *)

Module Scanner.

Record options := mkOptions {
  include : list string;
  exclude : list string
}.

(** The defaults of the constructor. *)
Definition default_options : options := {|
  include := [".js"; ".ts"];
  exclude := [
    "node_modules"; "__tests__"; "coverage"; "dist"; "build";
    ".git"; ".vscode"; ".idea"; "logs"; "tmp"; "temp";
    ".test."; ".spec."; ".min."; ".bundle.";
    "package.json"; "package-lock.json"; "yarn.lock";
    ".env"; ".gitignore"; "README"; "LICENSE";
    "webpack."; "babel."; "jest."; "tsconfig.";
    ".eslintrc"; ".prettierrc"]
|}.

Definition isValidFile (o : options) (filename : string) : bool :=
  existsb (fun ext => endsWith filename ext) (include o).

(** The case-insensitive test regexes: [/\.test\./i], [/\.spec\./i],
    [/test\.js$/i], [/spec\.js$/i], [/\.test\.js$/i], [/\.spec\.js$/i],
    [/\.test\.ts$/i], [/\.spec\.ts$/i], [/\.min\.js$/i], [/\.bundle\.js$/i]. *)
Definition testPatterns (filename : string) : list bool :=
  let f := toLowerCase filename in
  [includes f ".test."; includes f ".spec.";
   endsWith f "test.js"; endsWith f "spec.js";
   endsWith f ".test.js"; endsWith f ".spec.js";
   endsWith f ".test.ts"; endsWith f ".spec.ts";
   endsWith f ".min.js"; endsWith f ".bundle.js"].

Definition configPatterns : list string := [
  "package.json"; "package-lock.json"; "yarn.lock"; "npm-shrinkwrap.json";
  "webpack.config.js"; "webpack.prod.js"; "webpack.dev.js";
  "babel.config.js"; ".babelrc.js";
  "jest.config.js"; "jest.setup.js";
  "tsconfig.json"; "tsconfig.build.json";
  ".eslintrc.js"; ".eslintrc.json";
  ".prettierrc.js"; ".prettierrc.json";
  "rollup.config.js"; "vite.config.js";
  "tailwind.config.js"; "postcss.config.js"].

Definition isExcludedFile (o : options) (filename : string) : bool :=
  if existsb (fun b => b) (testPatterns filename) then true
  else if existsb (String.eqb (toLowerCase filename)) configPatterns then true
  else existsb (fun pattern => includes (toLowerCase filename) (toLowerCase pattern))
         (exclude o).

(** [stat] is [None] when [fs.statSync] throws. *)
Definition shouldProcessFile (o : options) (filename : string) (stat : option nat) : bool :=
  if negb (isValidFile o filename) then false
  else if isExcludedFile o filename then false
  else match stat with
       | Some size => negb (1024 * 1024 <? size)%nat
       | None => false
       end.

Definition excludeDirs : list string := [
  "node_modules"; "__tests__"; "coverage"; "dist"; "build";
  ".git"; ".vscode"; ".idea"; ".nyc_output";
  "logs"; "tmp"; "temp"; "cache";
  ".next"; ".nuxt"; ".output";
  "public"; "static"; "assets"].

Definition isExcludedDirectory (dirname : string) : bool :=
  existsb (fun pattern =>
    String.eqb (toLowerCase dirname) (toLowerCase pattern) ||
    includes (toLowerCase dirname) (toLowerCase pattern)) excludeDirs.

(** A directory entry as [fs.readdir(dir, { withFileTypes: true })] returns it.
    A directory carries the listing its own [readdir] would return, [None]
    when that call throws (permissions and the like); a file carries the
    result of [statSync] ([None] when it throws) and of [readFile]. *)
Inductive entry :=
| EDir (name : string) (listing : option (list entry))
| EFile (name : string) (stat : option nat) (content : option string)
| EOther (name : string).

(** The result of a walk: files pushed onto [routeFiles], in push order, and the
    directories reported by [console.warn]. *)
Definition walk : Type := (list string * list string)%type.

Definition walk_app (a b : walk) : walk := (app (fst a) (fst b), app (snd a) (snd b)).

Definition walk_concat (ws : list walk) : walk := fold_right walk_app ([], []) ws.

Section Walk.

(** The content classifier [containsRoutes] after a successful [readFile]
    (the test-file, config-file and route regexes); the walker's properties
    hold whatever it decides. *)
Variable contentHasRoutes : string -> bool.

Definition containsRoutes (content : option string) : bool :=
  match content with
  | Some c => contentHasRoutes c
  | None => false
  end.

Variable o : options.

Fixpoint searchEntry (dir : string) (e : entry) {struct e} : walk :=
  match e with
  | EDir name listing =>
      if isExcludedDirectory name then ([], [])
      else
        let fullPath := join dir name in
        match listing with
        | None => ([], [fullPath])
        | Some es => walk_concat (map (searchEntry fullPath) es)
        end
  | EFile name stat content =>
      if shouldProcessFile o name stat && containsRoutes content
      then ([join dir name], []) else ([], [])
  | EOther _ => ([], [])
  end.

Definition searchDirectory (dir : string) (listing : option (list entry)) : walk :=
  match listing with
  | None => ([], [dir])
  | Some es => walk_concat (map (searchEntry dir) es)
  end.

End Walk.

(** [Array.prototype.sort] without comparator on strings: the sorted
    permutation for the code-unit order. *)
Module StringLe <: TotalLeBool.
Definition t := string.
Definition leb (x y : string) : bool := String.leb x y.
Lemma leb_total : forall x y, leb x y = true \/ leb y x = true.
Proof. exact String.leb_total. Qed.
End StringLe.

Module StringSort := Sort StringLe.

Definition findRouteFiles (contentHasRoutes : string -> bool) (o : options)
    (directory : string) (listing : option (list entry)) : walk :=
  let r := searchDirectory contentHasRoutes o directory listing in
  (StringSort.sort (fst r), snd r).

(** A file reachable from [dir] whose every directory below [dir] passes the
    directory exclusion and which passes the file filter. *)
Inductive reached (o : options) : string -> list entry -> string -> Prop :=
| reached_file dir es name stat content :
    In (EFile name stat content) es ->
    shouldProcessFile o name stat = true ->
    reached o dir es (join dir name)
| reached_dir dir es name es' f :
    In (EDir name (Some es')) es ->
    isExcludedDirectory name = false ->
    reached o (join dir name) es' f ->
    reached o dir es f.

End Scanner.

(** ** Content classification of [Scanner.containsRoutes]
    ([looksLikeTestFile], [looksLikeConfigFile] and the route regexes) *)

Module ContentScan.

(** The regular expressions the scanner uses: a character class, sequence,
    alternation, the [*] repetition of a character class, and the empty
    expression. *)
Inductive regex :=
| RChar (p : ascii -> bool)
| RSeq (a b : regex)
| RAlt (a b : regex)
| RStar (p : ascii -> bool)
| REps.

Fixpoint star (p : ascii -> bool) (s : string) : list string :=
  s :: match s with
       | String c r => if p c then star p r else []
       | EmptyString => []
       end.

(** The rests of [s] after every match of the expression at the start of [s]. *)
Fixpoint matches (e : regex) (s : string) : list string :=
  match e with
  | RChar p => match s with
               | String c r => if p c then [r] else []
               | EmptyString => []
               end
  | RSeq a b => flat_map (matches b) (matches a s)
  | RAlt a b => matches a s ++ matches b s
  | RStar p => star p s
  | REps => [s]
  end.

Fixpoint suffixes (s : string) : list string :=
  s :: match s with
       | String _ r => suffixes r
       | EmptyString => []
       end.

(** [pattern.test(s)] for an unanchored expression: a match starts somewhere. *)
Definition test (e : regex) (s : string) : bool :=
  existsb (fun t => match matches e t with [] => false | _ => true end) (suffixes s).

(** A literal, case-sensitive and under the [i] flag. *)
Fixpoint lit (w : string) : regex :=
  match w with
  | EmptyString => REps
  | String c r => RSeq (RChar (fun c' => Ascii.eqb c' c)) (lit r)
  end.

Fixpoint ilit (w : string) : regex :=
  match w with
  | EmptyString => REps
  | String c r => RSeq (RChar (fun c' => Ascii.eqb (lower_char c') (lower_char c))) (ilit r)
  end.

Fixpoint seqs (es : list regex) : regex :=
  match es with
  | [] => REps
  | e :: r => RSeq e (seqs r)
  end.

Fixpoint alts (es : list regex) : regex :=
  match es with
  | [] => RChar (fun _ => false)
  | [e] => e
  | e :: r => RAlt e (alts r)
  end.

(** [\s*] and [\s+] (white space on ASCII). *)
Definition sp : regex := RStar is_space.
Definition sp1 : regex := RSeq (RChar is_space) (RStar is_space).

(** The double quote character. *)
Definition dq : string := String "034"%char EmptyString.

Definition not_char (x : ascii) : regex := RStar (fun c => negb (Ascii.eqb c x)).

(** [testPatterns] of [looksLikeTestFile]. *)
Definition testPatterns : list regex := [
  seqs [lit "describe"; sp; lit "("];
  seqs [lit "it"; sp; lit "("];
  seqs [lit "test"; sp; lit "("];
  seqs [lit "expect"; sp; lit "("];
  lit "jest.";
  seqs [lit "beforeEach"; sp; lit "("];
  seqs [lit "afterEach"; sp; lit "("];
  seqs [lit "beforeAll"; sp; lit "("];
  seqs [lit "afterAll"; sp; lit "("];
  lit "chai.";
  lit "should.";
  lit "assert."].

Definition looksLikeTestFile (content : string) : bool :=
  (2 <=? List.length (filter (fun pattern => test pattern content) testPatterns))%nat.

(** [configPatterns] of [looksLikeConfigFile]. *)
Definition configPatterns : list regex := [
  seqs [lit "module.exports"; sp; lit "="; sp; lit "{"; not_char "}"; lit "port"; sp; lit ":"];
  seqs [lit "export"; sp1; lit "default"; sp1; lit "{"; not_char "}"; lit "port"; sp; lit ":"];
  seqs [lit (dq ++ "scripts" ++ dq); sp; lit ":"; sp; lit "{"];
  seqs [lit (dq ++ "dependencies" ++ dq); sp; lit ":"; sp; lit "{"];
  seqs [lit (dq ++ "devDependencies" ++ dq); sp; lit ":"; sp; lit "{"];
  alts [ilit "webpack"; ilit "babel"; ilit "jest"; ilit "eslint"; ilit "prettier"]].

Definition looksLikeConfigFile (content : string) : bool :=
  existsb (fun pattern => test pattern content) configPatterns.

Definition route_methods : list string := ["get"; "post"; "put"; "delete"; "patch"; "head"; "options"].

Definition is_quote (c : ascii) : bool := Ascii.eqb c "'" || Ascii.eqb c "034".

(** [routePatterns] of [containsRoutes], all with the [i] flag. *)
Definition routePatterns : list regex := [
  seqs [ilit "app."; alts (map ilit route_methods); sp; ilit "("];
  seqs [ilit "router."; alts (map ilit route_methods); sp; ilit "("];
  ilit "express().router()";
  seqs [ilit "@"; alts (map ilit ["Get"; "Post"; "Put"; "Delete"; "Patch"; "Head"; "Options"]);
        sp; ilit "("];
  seqs [ilit "fastify."; alts (map ilit route_methods)];
  seqs [ilit ".route"; sp; ilit "("; sp; RChar is_quote;
        RStar (fun c => negb (is_quote c)); RChar is_quote; sp; ilit ")"]].

(** The decision of [containsRoutes] on the content [readFile] returned. *)
Definition contentHasRoutes (content : string) : bool :=
  if looksLikeTestFile content then false
  else if looksLikeConfigFile content then false
  else existsb (fun pattern => test pattern content) routePatterns.

(** [containsRoutes]: [None] when [readFile] throws. *)
Definition containsRoutes (content : option string) : bool :=
  Scanner.containsRoutes contentHasRoutes content.

End ContentScan.

(** ** Parser ([src/src/parser/index.js]) *)

Module Parser.

(** The part of the Babel syntax tree the extractor inspects. Every node
    carries its [start] and [end] offsets in the source text. *)
Inductive node :=
| Identifier (name : string)
| StringLiteral (value : string)
| TemplateLiteral (quasis : list string) (expressions : list expr)
| MemberExpression (object property : expr)
| CallExpression (callee : expr) (arguments : list expr)
| FunctionExpression (async : bool) (params : list expr) (body : expr)
| ArrowFunctionExpression (async : bool) (params : list expr) (body : expr)
| ObjectPattern
| OtherNode (kind : string) (children : list expr)
with expr :=
| Node (start end_ : nat) (n : node).

(** A file after [parser.parse]: its top-level statements. *)
Definition program : Type := list expr.

(** A path parameter as [extractParameters] builds it. *)
Record param := mkParam {
  p_name : string;
  p_in : string;
  p_required : bool;
  p_type : string
}.

Record route := mkRoute {
  method : string;
  path : string;
  handler : json;
  handlerCode : option string;
  middleware : list string;
  parameters : list param;
  file : string
}.

Definition httpMethods : list string :=
  ["get"; "post"; "put"; "delete"; "patch"; "options"; "head"].

(** [\w] in a regular expression without the [u] flag. *)
Definition is_word (c : ascii) : bool :=
  let n := nat_of_ascii c in
  ((48 <=? n) && (n <=? 57))%nat || ((65 <=? n) && (n <=? 90))%nat ||
  ((97 <=? n) && (n <=? 122))%nat || (n =? 95)%nat.

(** The matcher of [routePath.match(/:(\w+)/g)], one state per position:
    [MOut] outside a match, [MColon] just after a [:], [MIn w] inside the
    word [w] of a match. Each match is returned without its colon, which is
    what [param.substring(1)] keeps. *)
Inductive mstate := MOut | MColon | MIn (w : string).

Fixpoint colon_matches (st : mstate) (s : string) : list string :=
  match s with
  | EmptyString => match st with MIn w => [w] | _ => [] end
  | String c r =>
      match st with
      | MIn w =>
          if is_word c then colon_matches (MIn (w ++ String c EmptyString)) r
          else w :: colon_matches (if Ascii.eqb c ":" then MColon else MOut) r
      | MColon =>
          if is_word c then colon_matches (MIn (String c EmptyString)) r
          else colon_matches (if Ascii.eqb c ":" then MColon else MOut) r
      | MOut => colon_matches (if Ascii.eqb c ":" then MColon else MOut) r
      end
  end.

Definition extractParameters (routePath : string) : list param :=
  map (fun name => {| p_name := name; p_in := "path"; p_required := true; p_type := "string" |})
      (colon_matches MOut routePath).

Fixpoint template_path (i : nat) (nexpr : nat) (quasis : list string) : string :=
  match quasis with
  | [] => EmptyString
  | q :: r =>
      q ++ (if (i <? nexpr)%nat then ":param" ++ nat_to_string i else EmptyString)
        ++ template_path (S i) nexpr r
  end.

Definition extractRoutePath (arg : option expr) : option string :=
  match arg with
  | Some (Node _ _ (StringLiteral v)) => Some v
  | Some (Node _ _ (TemplateLiteral quasis exprs)) =>
      Some (template_path 0 (List.length exprs) quasis)
  | _ => None
  end.

Definition formatCode (code : string) : string :=
  concat_with (String "010"%char EmptyString)
    (filter (fun l => negb (String.eqb l EmptyString))
       (map trim (split "010"%char code))).

Definition handler_param_name (p : expr) : json :=
  match p with
  | Node _ _ (Identifier n) => JStr n
  | Node _ _ ObjectPattern => JStr "destructured"
  | _ => JStr "unknown"
  end.

Definition extractHandler (e : expr) : json :=
  match e with
  | Node _ _ (FunctionExpression async params _)
  | Node _ _ (ArrowFunctionExpression async params _) =>
      JObj [("type", JStr "inline"); ("params", JArr (map handler_param_name params));
            ("async", JBool async)]
  | Node _ _ (Identifier n) => JObj [("type", JStr "reference"); ("name", JStr n)]
  | _ => JNull
  end.

Definition extractHandlerWithCode (args : list expr) (sourceCode : string) : json * option string :=
  match rev args with
  | [] => (JNull, None)
  | (Node st en _ as h) :: _ =>
      (extractHandler h, Some (formatCode (substring st (en - st) sourceCode)))
  end.

Definition middleware_name (arg : expr) : list string :=
  match arg with
  | Node _ _ (Identifier n) => [n]
  | Node _ _ (CallExpression (Node _ _ (Identifier n)) _) => [n ++ "()"]
  | _ => []
  end.

(** Arguments [1 .. args.length - 2]. *)
Definition extractMiddleware (args : list expr) : list string :=
  flat_map middleware_name (firstn (List.length args - 2) (skipn 1 args)).

(** [extractRoute]; [if (routePath)] also rejects the empty path. The leading
    comment description is not part of this model. *)
Definition extractRoute (e : expr) (sourceCode : string) : option route :=
  match e with
  | Node _ _ (CallExpression (Node _ _ (MemberExpression _ (Node _ _ (Identifier prop)))) args) =>
      let m := toLowerCase prop in
      if existsb (String.eqb m) httpMethods then
        match extractRoutePath (hd_error args) with
        | Some routePath =>
            if String.eqb routePath EmptyString then None
            else
              let hc := extractHandlerWithCode args sourceCode in
              Some {| method := toUpperCase m; path := routePath;
                      handler := fst hc; handlerCode := snd hc;
                      middleware := extractMiddleware args;
                      parameters := extractParameters routePath;
                      file := EmptyString |}
        | None => None
        end
      else None
  | _ => None
  end.

(** The [CallExpression] nodes in the order [traverse] enters them. *)
Fixpoint calls (e : expr) : list expr :=
  match e with
  | Node _ _ n =>
      match n with
      | Identifier _ | StringLiteral _ | ObjectPattern => []
      | TemplateLiteral _ es => List.concat (map calls es)
      | MemberExpression o p => calls o ++ calls p
      | CallExpression c args => e :: calls c ++ List.concat (map calls args)
      | FunctionExpression _ ps b | ArrowFunctionExpression _ ps b =>
          List.concat (map calls ps) ++ calls b
      | OtherNode _ cs => List.concat (map calls cs)
      end
  end.

Definition set_file (filePath : string) (r : route) : route :=
  {| method := method r; path := path r; handler := handler r; handlerCode := handlerCode r;
     middleware := middleware r; parameters := parameters r; file := filePath |}.

Definition extractRoutes (ast : program) (content filePath : string) : list route :=
  map (set_file filePath)
    (flat_map (fun c => match extractRoute c content with Some r => [r] | None => [] end)
       (List.concat (map calls ast))).

(** [parseFile]: [readFile] and [parse] are the file read and the Babel parse,
    each of which may throw. The second component is the warning log. *)
Definition parseFile (readFile : string -> result string) (parse : string -> result program)
    (filePath : string) : result (list route * list string) :=
  try_catch
    (content <- readFile filePath ;;
     ast <- parse content ;;
     Ok (extractRoutes ast content filePath, []))
    (fun message =>
       Ok ([], [("Warning: Could not parse " ++ filePath ++ ": " ++ message)%string])).

End Parser.

(** ** AI analyzer ([src/src/ai/index.js], second class of the file) *)

Module AIAnalyzer.

Import Parser.

(** [path.split('/').filter(part => part && !part.startsWith(':'))]. *)
Definition pathParts (p : string) : list string :=
  filter (fun part => negb (String.eqb part EmptyString) && negb (startsWith part ":"))
         (split "/" p).

(** [pathParts[pathParts.length - 1] || dflt]. *)
Definition last_part (p dflt : string) : string :=
  match rev (pathParts p) with
  | x :: _ => x
  | [] => dflt
  end.

Definition is_body_method (m : string) : bool :=
  existsb (String.eqb m) ["POST"; "PUT"; "PATCH"].

Definition generateDefaultSummary (r : route) : string :=
  let resource := last_part (path r) "resource" in
  let m := method r in
  if String.eqb m "GET" then
    (if includes (path r) ":" then "Get " ++ resource else "List " ++ resource ++ "s")
  else if String.eqb m "POST" then "Create " ++ resource
  else if String.eqb m "PUT" then "Update " ++ resource
  else if String.eqb m "PATCH" then "Update " ++ resource
  else if String.eqb m "DELETE" then "Delete " ++ resource
  else m ++ " " ++ resource.

Definition generateDefaultDescription (r : route) : string :=
  let resource := last_part (path r) "resource" in
  let m := method r in
  if String.eqb m "GET" then
    (if includes (path r) ":" then "Retrieve a specific " ++ resource ++ " by ID"
     else "Retrieve a list of " ++ resource ++ "s")
  else if String.eqb m "POST" then "Create a new " ++ resource
  else if String.eqb m "PUT" then "Update an existing " ++ resource
  else if String.eqb m "PATCH" then "Partially update an existing " ++ resource
  else if String.eqb m "DELETE" then "Delete a " ++ resource
  else "Perform " ++ m ++ " operation on " ++ resource.

Definition inferTag (p : string) : string :=
  match pathParts p with
  | x :: _ => capitalize x
  | [] => "API"
  end.

Definition param_to_json (p : param) : json :=
  JObj [("name", JStr (p_name p)); ("in", JStr (p_in p));
        ("required", JBool (p_required p)); ("type", JStr (p_type p))].

Definition str_field (d : string) : json := JObj [("type", JStr "string"); ("description", JStr d)].

(** [generateFallbackAnalysis]: the template analysis. *)
Definition generateFallbackAnalysis (r : route) : json :=
  let m := method r in
  let collection := String.eqb m "GET" && negb (includes (path r) ":") in
  JObj [
    ("summary", JStr (generateDefaultSummary r));
    ("description", JStr (generateDefaultDescription r));
    ("requestSchema",
      if is_body_method m then
        JObj [("type", JStr "object");
              ("properties", JObj [("name", str_field "Name field"); ("id", str_field "Identifier")]);
              ("required", JArr [JStr "name"])]
      else JNull);
    ("responseSchema",
      JObj [("type", JStr (if collection then "array" else "object"));
            ("properties",
              if collection then JUndef
              else JObj [("id", str_field "Unique identifier"); ("name", str_field "Name");
                         ("createdAt", JObj [("type", JStr "string"); ("format", JStr "date-time")])])]);
    ("parameters", JArr (map param_to_json (parameters r)));
    ("tags", JArr [JStr (inferTag (path r))]);
    ("examples",
      JObj [("request", if is_body_method m then JObj [("name", JStr "Example name")] else JObj []);
            ("response",
              if collection then JArr [JObj [("id", JStr "1"); ("name", JStr "Example item")]]
              else JObj [("id", JStr "1"); ("name", JStr "Example item")])]);
    ("statusCodes",
      JObj [("200", if String.eqb m "DELETE" then JUndef else JStr "Success");
            ("201", if String.eqb m "POST" then JStr "Created successfully" else JUndef);
            ("204", if String.eqb m "DELETE" then JStr "Deleted successfully" else JUndef);
            ("400", JStr "Bad request");
            ("404", if includes (path r) ":" then JStr "Not found" else JUndef);
            ("500", JStr "Internal server error")])
  ].

(** [p.name === name] for a string [name]. *)
Definition name_is (v : json) (name : string) : bool :=
  match v with
  | JStr s => String.eqb s name
  | _ => false
  end.

(** [enhanced.parameters.find(p => p.name === name)] on an array, [true]
    when an element is found; [p.name] throws on a [null] element. *)
Fixpoint find_name (name : string) (xs : list json) : result bool :=
  match xs with
  | [] => Ok false
  | x :: rest =>
      match x with
      | JUndef | JNull => Throw "Cannot read properties of null (reading 'name')"
      | _ => if name_is (prop x "name") name then Ok true else find_name name rest
      end
  end.

Fixpoint add_missing (rps : list param) (xs : list json) : result (list json) :=
  match rps with
  | [] => Ok xs
  | p :: rest =>
      found <- find_name (p_name p) xs ;;
      add_missing rest
        (if found then xs
         else xs ++ [JObj [("name", JStr (p_name p)); ("type", JStr "string");
                           ("description", JStr (p_name p ++ " identifier"));
                           ("required", JBool true); ("in", JStr "path")]])
  end.

(** The [route.parameters?.length] branch: [find] and [push] need an array. *)
Definition addPathParameters (rps : list param) (ps : json) : result json :=
  match rps with
  | [] => Ok ps
  | _ :: _ =>
      match ps with
      | JArr xs => xs' <- add_missing rps xs ;; Ok (JArr xs')
      | _ => Throw "enhanced.parameters.find is not a function"
      end
  end.

Definition validateAndEnhanceAnalysis (analysis : json) (r : route) : result json :=
  _ <- get analysis "summary" ;;
  let requestSchema0 := or (prop analysis "requestSchema") JNull in
  let requestSchema :=
    if String.eqb (method r) "GET" && truthy requestSchema0 then JNull else requestSchema0 in
  ps <- addPathParameters (parameters r) (or (prop analysis "parameters") (JArr [])) ;;
  Ok (JObj [
    ("summary", or (prop analysis "summary") (JStr (generateDefaultSummary r)));
    ("description", or (prop analysis "description") (JStr (generateDefaultDescription r)));
    ("requestSchema", requestSchema);
    ("responseSchema", or (prop analysis "responseSchema") (JObj [("type", JStr "object")]));
    ("parameters", ps);
    ("tags", or (prop analysis "tags") (JArr [JStr (inferTag (path r))]));
    ("examples", or (prop analysis "examples") (JObj [("request", JObj []); ("response", JObj [])]));
    ("statusCodes", or (prop analysis "statusCodes") (JObj [("200", JStr "Success")]))
  ]).

Definition buildAnalysisPrompt (r : route) : string :=
  let code := match handlerCode r with
              | Some c => if String.eqb c EmptyString then "No code available" else c
              | None => "No code available"
              end in
  "Analyze this Express.js route and return documentation as JSON:" ++ String "010" (String "010"
  ("Method: " ++ method r ++ String "010" ("Path: " ++ path r ++ String "010" ("Code: " ++ code ++
  String "010" (String "010"
  "Generate JSON with summary, description, schemas, parameters, tags, examples, and status codes."))))).

(** What [groq.chat.completions.create] produces: a completion whose first
    choice may carry a message content, or a rejection (timeout, transport or
    quota error). *)
Inductive completion :=
| Completed (content : option string)
| Failed (message : string).

Definition maxRetries : nat := 3.

Section Analyze.

(** The generative service, by attempt number and prompt. *)
Variable create : nat -> string -> completion.
(** [extractJSON] (fence stripping, brace isolation and preamble removal). *)
Variable extractJSON : string -> string.
(** [parseJSON]: strict [JSON.parse], then the repair parse; throws when both fail. *)
Variable parseJSON : string -> result json.

(** The body of the [try] block of one attempt. *)
Definition attempt (r : route) (k : nat) : result json :=
  match create k (buildAnalysisPrompt r) with
  | Failed message => Throw message
  | Completed content =>
      match option_map trim content with
      | None => Throw "No response from Groq API"
      | Some c =>
          if String.eqb c EmptyString then Throw "No response from Groq API"
          else analysis <- parseJSON (extractJSON c) ;;
               validateAndEnhanceAnalysis analysis r
      end
  end.

(** The [for] loop over attempts [k .. k + remaining - 1], then the fallback. *)
Fixpoint retry (r : route) (k remaining : nat) : result json :=
  match remaining with
  | O => Ok (generateFallbackAnalysis r)
  | S n => try_catch (attempt r k) (fun _ => retry r (S k) n)
  end.

Definition analyzeRoute (r : route) : result json := retry r 1 maxRetries.

(** One route of [analyzeBatch]: [analyzeRoute] inside [try], the fallback
    analysis in [catch]. *)
Definition analyzeOne (r : route) : route * json :=
  match analyzeRoute r with
  | Ok analysis => (r, analysis)
  | Throw _ => (r, generateFallbackAnalysis r)
  end.

(** The outer loop [for (let i = 0; i < routes.length; i += batchSize)] of
    [analyzeBatch], each round analysing [routes.slice(i, i + batchSize)];
    [fuel] bounds the number of rounds, [None] when the loop has not ended
    within it. *)
Fixpoint batch_loop (routes : list route) (batchSize : nat) (fuel i : nat)
    (results : list (route * json)) : option (list (route * json)) :=
  match fuel with
  | O => None
  | S fuel' =>
      if Nat.ltb i (List.length routes) then
        batch_loop routes batchSize fuel' (i + batchSize)
          (app results (map analyzeOne (firstn batchSize (skipn i routes))))
      else Some results
  end.

Definition analyzeBatch (routes : list route) (batchSize : nat) (fuel : nat)
  : option (list (route * json)) :=
  batch_loop routes batchSize fuel 0 [].

End Analyze.

End AIAnalyzer.

(** ** The [scan] action of [src/src/cli/index.js] without AI *)

Module Cli.

Import Parser.

Definition templateAnalysis (r : route) : json :=
  JObj [("summary", JStr (method r ++ " " ++ path r));
        ("description", JStr "API endpoint");
        ("tags", JArr [JStr "API"]);
        ("parameters", JArr (map AIAnalyzer.param_to_json (parameters r)));
        ("statusCodes", JObj [("200", JStr "Success")])].

End Cli.

(** ** OpenAPI generator ([src/src/generator/index.js], class [Generator]) *)

Module Generator.

Import Parser.

Record options := mkOptions {
  title : string;
  version : string;
  description : string;
  baseUrl : string
}.

Definition default_options : options := {|
  title := "API Documentation";
  version := "1.0.0";
  description := "AI-generated API documentation";
  baseUrl := "http://localhost:3000"
|}.

(** An element of [analysisResults]: [{ route, analysis }]. *)
Definition result_pair : Type := (route * json)%type.

Fixpoint group_add (k : string) (x : result_pair) (g : list (string * list result_pair))
  : list (string * list result_pair) :=
  match g with
  | [] => [(k, [x])]
  | (k', xs) :: rest =>
      if String.eqb k k' then (k', app xs [x]) :: rest else (k', xs) :: group_add k x rest
  end.

(** The members of [Object.prototype], which the plain object [{}] inherits:
    reading one of these keys on an object without that own key gives a
    truthy value (a function, or [Object.prototype] itself for [__proto__]). *)
Definition object_prototype_keys : list string :=
  ["constructor"; "__defineGetter__"; "__defineSetter__"; "hasOwnProperty";
   "__lookupGetter__"; "__lookupSetter__"; "isPrototypeOf"; "propertyIsEnumerable";
   "toString"; "valueOf"; "__proto__"; "toLocaleString"].

Definition inherited_key (k : string) : bool := existsb (String.eqb k) object_prototype_keys.

(** [groupResultsByPath]: keyed by [result.route.path] in the object
    [grouped = {}]. For a path that is an inherited key, [!grouped[path]] is
    false, so no array is created, and [grouped[path].push] is not a function:
    the call throws a [TypeError]. *)
Definition groupResultsByPath (analysisResults : list result_pair)
  : result (list (string * list result_pair)) :=
  fold_left (fun acc res =>
    grouped <- acc ;;
    let p := path (fst res) in
    if inherited_key p then Throw "grouped[path].push is not a function"
    else Ok (group_add p res grouped)) analysisResults (Ok []).

(** The groups [groupResultsByPath] builds when no path is an inherited key. *)
Definition group_results (analysisResults : list result_pair) : list (string * list result_pair) :=
  fold_left (fun g res => group_add (path (fst res)) res g) analysisResults [].

(** One element of [analysis.parameters.forEach]; [param.name] throws on [null]. *)
Definition parameter_of (p : json) : result json :=
  match p with
  | JUndef | JNull => Throw "Cannot read properties of null (reading 'name')"
  | _ =>
      Ok (JObj [("name", prop p "name");
                ("in", or (prop p "in") (JStr "path"));
                ("required", JBool (match prop p "required" with JBool false => false | _ => true end));
                ("schema", JObj [("type", or (prop p "type") (JStr "string"))]);
                ("description", prop p "description")])
  end.

Fixpoint map_result {A B} (f : A -> result B) (l : list A) : result (list B) :=
  match l with
  | [] => Ok []
  | x :: rest => y <- f x ;; ys <- map_result f rest ;; Ok (y :: ys)
  end.

Definition generateParametersFromAnalysis (analysis : json) : result (list json) :=
  let ps := prop analysis "parameters" in
  if truthy ps then
    match ps with
    | JArr xs => map_result parameter_of xs
    | _ => Throw "analysis.parameters.forEach is not a function"
    end
  else Ok [].

(** [analysis.examples?.response]. *)
Definition example_response (analysis : json) : json :=
  match prop analysis "examples" with
  | JUndef | JNull => JUndef
  | ex => prop ex "response"
  end.

Definition example_request (analysis : json) : json :=
  match prop analysis "examples" with
  | JUndef | JNull => JUndef
  | ex => prop ex "request"
  end.

Definition generateResponsesFromAnalysis (analysis : json) : json :=
  let sc := prop analysis "statusCodes" in
  let rs := prop analysis "responseSchema" in
  if truthy sc then
    JObj (fold_left (fun acc cd =>
      let code := fst cd in
      set_field code
        (JObj (app [("description", snd cd)]
               (if startsWith code "2" && truthy rs then
                  [("content", JObj [("application/json",
                      JObj [("schema", rs); ("example", or (example_response analysis) (JObj []))])])]
                else [])))
        acc) (entries sc) [])
  else
    JObj [("200", JObj [("description", JStr "Success");
                        ("content", JObj [("application/json",
                           JObj [("schema", or rs (JObj [("type", JStr "object")]))])])])].

Definition generateOperationFromAnalysis (r : route) (analysis : json) : result json :=
  ps <- generateParametersFromAnalysis analysis ;;
  let base := [("summary", prop analysis "summary");
               ("description", prop analysis "description");
               ("tags", prop analysis "tags");
               ("parameters", JArr ps);
               ("responses", generateResponsesFromAnalysis analysis)] in
  let rq := prop analysis "requestSchema" in
  if AIAnalyzer.is_body_method (method r) && truthy rq then
    Ok (JObj (app base [("requestBody",
      JObj [("description", JStr "Request payload"); ("required", JBool true);
            ("content", JObj [("application/json",
               JObj [("schema", rq); ("example", or (example_request analysis) (JObj []))])])])]))
  else Ok (JObj base).

Definition generateSchemaName (r : route) (suffix : string) : string :=
  capitalize (AIAnalyzer.last_part (path r) "Resource") ++ suffix.

(** The state of [extractReusableSchemas]: [schemaMap] (serialized schema to
    name) and [components.schemas]. *)
Definition schema_state : Type := (list (option string * string) * list (string * json))%type.

Definition option_string_eqb (a b : option string) : bool :=
  match a, b with
  | Some x, Some y => String.eqb x y
  | None, None => true
  | _, _ => false
  end.

Definition register (r : route) (suffix : string) (schema : json) (st : schema_state)
  : schema_state :=
  if truthy schema then
    let schemaKey := stringify schema in
    if existsb (fun e => option_string_eqb (fst e) schemaKey) (fst st) then st
    else
      let schemaName := generateSchemaName r suffix in
      (app (fst st) [(schemaKey, schemaName)], set_field schemaName schema (snd st))
  else st.

Definition reusable_step (st : schema_state) (res : result_pair) : schema_state :=
  let r := fst res in
  let a := snd res in
  register r "Response" (prop a "responseSchema") (register r "Request" (prop a "requestSchema") st).

(** [components.schemas] after [extractReusableSchemas], starting empty. *)
Definition extractReusableSchemas (analysisResults : list result_pair) : list (string * json) :=
  snd (fold_left reusable_step analysisResults ([], [])).

(** [paths[path][route.method.toLowerCase()] = operation] over one group. *)
Fixpoint path_item (prs : list result_pair) (acc : list (string * json))
  : result (list (string * json)) :=
  match prs with
  | [] => Ok acc
  | (r, a) :: rest =>
      op <- generateOperationFromAnalysis r a ;;
      path_item rest (set_field (toLowerCase (method r)) op acc)
  end.

Fixpoint build_paths (g : list (string * list result_pair)) (acc : list (string * json))
  : result (list (string * json)) :=
  match g with
  | [] => Ok acc
  | (p, prs) :: rest =>
      item <- path_item prs [] ;;
      build_paths rest (set_field p (JObj item) acc)
  end.

Definition generateSpec (o : options) (analysisResults : list result_pair) : result json :=
  groupedResults <- groupResultsByPath analysisResults ;;
  paths <- build_paths groupedResults [] ;;
  let schemas := extractReusableSchemas analysisResults in
  Ok (JObj [
    ("openapi", JStr "3.0.0");
    ("info", JObj [("title", JStr (title o)); ("version", JStr (version o));
                   ("description", JStr (description o ++ " (AI-Enhanced)"))]);
    ("servers", JArr [JObj [("url", JStr (baseUrl o)); ("description", JStr "Development server")]]);
    ("paths", JObj paths);
    ("components", JObj [("schemas", JObj schemas); ("responses", JObj []); ("parameters", JObj [])])
  ]).

(** [spec.paths] of a generated specification. *)
Definition spec_paths (spec : json) : list (string * json) :=
  match prop spec "paths" with
  | JObj fs => fs
  | _ => []
  end.

(** [spec.components.schemas]. *)
Definition spec_schemas (spec : json) : list (string * json) :=
  match prop (prop spec "components") "schemas" with
  | JObj fs => fs
  | _ => []
  end.



End Generator.

(** ** Inputs used to state the properties *)

Module Inputs.

Import Parser.

(** A route path written as segments: a literal segment [/s] or a parameter
    segment [/:n]. *)
Inductive segment := Lit (s : string) | Param (n : string).

Definition render_segment (sg : segment) : string :=
  match sg with
  | Lit s => "/" ++ s
  | Param n => "/:" ++ n
  end.

Definition render_path (segs : list segment) : string :=
  fold_right (fun sg acc => render_segment sg ++ acc) EmptyString segs.

Definition param_names (segs : list segment) : list string :=
  flat_map (fun sg => match sg with Param n => [n] | Lit _ => [] end) segs.

(** A literal segment has no colon; a parameter name is a non-empty word. *)
Definition segment_ok (sg : segment) : bool :=
  match sg with
  | Lit s => forallb (fun c => negb (Ascii.eqb c ":")) (list_ascii_of_string s)
  | Param n => negb (String.eqb n EmptyString) && forallb is_word (list_ascii_of_string n)
  end.

(** [app.get('/users', listUsers)] after extraction. *)
Definition users_get_route : Parser.route := {|
  Parser.method := "GET"; Parser.path := "/users";
  Parser.handler := JObj [("type", JStr "reference"); ("name", JStr "listUsers")];
  Parser.handlerCode := Some "listUsers"; Parser.middleware := [];
  Parser.parameters := []; Parser.file := "routes/users.js" |}.

(** [app.delete('/users/:id', ...)] after extraction. *)
Definition delete_user_route : Parser.route := {|
  Parser.method := "DELETE"; Parser.path := "/users/:id"; Parser.handler := JNull;
  Parser.handlerCode := None; Parser.middleware := [];
  Parser.parameters := Parser.extractParameters "/users/:id"; Parser.file := "app.js" |}.

(** A service reply that carries a request schema. *)
Definition service_analysis_with_body : json :=
  JObj [("summary", JStr "Remove a user");
        ("requestSchema", JObj [("type", JStr "object");
                                ("properties", JObj [("reason", JObj [("type", JStr "string")])])])].

(** The source [app.get('/users', handler);] and the tree Babel parses it to. *)
Definition users_source : string := "app.get('/users', handler);".

Definition users_ast : program :=
  [Node 0 27 (OtherNode "ExpressionStatement"
     [Node 0 26 (CallExpression
        (Node 0 7 (MemberExpression (Node 0 3 (Identifier "app")) (Node 4 7 (Identifier "get"))))
        [Node 8 16 (StringLiteral "/users"); Node 18 25 (Identifier "handler")])])].

(** The source [app.get('/users/:id', handler);] and its tree. *)
Definition users_id_source : string := "app.get('/users/:id', handler);".

Definition users_id_ast : program :=
  [Node 0 31 (OtherNode "ExpressionStatement"
     [Node 0 30 (CallExpression
        (Node 0 7 (MemberExpression (Node 0 3 (Identifier "app")) (Node 4 7 (Identifier "get"))))
        [Node 8 20 (StringLiteral "/users/:id"); Node 22 29 (Identifier "handler")])])].

Definition simple_route (m p : string) : Parser.route := {|
  Parser.method := m; Parser.path := p; Parser.handler := JNull;
  Parser.handlerCode := None; Parser.middleware := [];
  Parser.parameters := Parser.extractParameters p; Parser.file := "routes/users.js" |}.




(** A validated analysis of the generative strategy with the given request schema. *)
Definition service_analysis (summary : string) (requestSchema : json) : json :=
  JObj [("summary", JStr summary); ("description", JStr summary);
        ("requestSchema", requestSchema);
        ("responseSchema", JObj [("type", JStr "object")]);
        ("parameters", JArr []); ("tags", JArr [JStr "Users"]);
        ("examples", JObj [("request", JObj []); ("response", JObj [])]);
        ("statusCodes", JObj [("200", JStr "Success")])].

End Inputs.

(** ** Helpers of the second [Parser] class of [src/src/generator/index.js]
    ([enhanceRoute] and the functions it calls) *)

Module EnhancedParser.

Import Parser.

(** [[a-zA-Z0-9]]. *)
Definition is_alnum (c : ascii) : bool :=
  let n := nat_of_ascii c in
  ((48 <=? n) && (n <=? 57))%nat || ((65 <=? n) && (n <=? 90))%nat ||
  ((97 <=? n) && (n <=? 122))%nat.

(** [s.replace(/[^a-zA-Z0-9]/g, '_')]. *)
Fixpoint replace_non_alnum (s : string) : string :=
  match s with
  | EmptyString => EmptyString
  | String c r => String (if is_alnum c then c else "_"%char) (replace_non_alnum r)
  end.

Definition generateRouteId (r : route) : string :=
  toLowerCase (method r) ++ "_" ++ replace_non_alnum (path r).

(** The matcher of [path.match(/{([a-zA-Z0-9_]+)}/g)] ([[a-zA-Z0-9_]] is
    [\w]): [BOut] outside a match, [BIn w] after a [{] and the word [w]. A
    failed attempt resumes after its [{], where the word characters read
    cannot start a match, so the scan goes on at the character that ended
    the attempt. Each match is returned without its braces, as
    [param.slice(1, -1)] keeps it. *)
Inductive bstate := BOut | BIn (w : string).

Fixpoint brace_matches (st : bstate) (s : string) : list string :=
  match s with
  | EmptyString => []
  | String c r =>
      match st with
      | BIn w =>
          if is_word c then brace_matches (BIn (w ++ String c EmptyString)) r
          else if Ascii.eqb c "}" && negb (String.eqb w EmptyString) then w :: brace_matches BOut r
          else brace_matches (if Ascii.eqb c "{" then BIn EmptyString else BOut) r
      | BOut => brace_matches (if Ascii.eqb c "{" then BIn EmptyString else BOut) r
      end
  end.

Definition path_param (name : string) : param :=
  {| p_name := name; p_in := "path"; p_required := true; p_type := "string" |}.

(** [extractParameters]: the [:name] matches ([/:([a-zA-Z0-9_]+)/g], the
    matcher [colon_matches] of [src/src/parser]), then each [{name}] match
    whose name no parameter has yet. *)
Definition extractParameters (path : string) : list param :=
  fold_left (fun ps name =>
               if existsb (fun p => String.eqb (p_name p) name) ps then ps
               else app ps [path_param name])
    (brace_matches BOut path) (map path_param (colon_matches MOut path)).

(** [line.trim().replace(/^\*\s?/, '')] after the trim. *)
Definition strip_star (s : string) : string :=
  match s with
  | String c r =>
      if Ascii.eqb c "*" then
        match r with
        | String c' r' => if is_space c' then r' else r
        | EmptyString => EmptyString
        end
      else s
  | EmptyString => EmptyString
  end.

Record jsdoc := mkJsdoc {
  summary : string;
  description : string;
  tags : list (string * string)
}.

(** One iteration of the [for (const line of lines)] loop on
    [(doc.description, doc.tags)]. *)
Definition jsdoc_line (st : string * list (string * string)) (line : string)
  : string * list (string * string) :=
  let trimmed := strip_star (trim line) in
  if startsWith trimmed "@" then
    match split " " trimmed with
    | tag :: rest =>
        (fst st, app (snd st) [(substring 1 (String.length tag - 1) tag, concat_with " " rest)])
    | [] => st
    end
  else if negb (String.eqb trimmed EmptyString) && String.eqb (fst st) EmptyString
  then (trimmed, snd st)
  else st.

Definition parseJSDocComments (comments : string) : jsdoc :=
  let st := fold_left jsdoc_line (split "010" comments) (EmptyString, []) in
  {| summary := match split "." (fst st) with s :: _ => s | [] => EmptyString end;
     description := fst st;
     tags := snd st |}.

(** [detectAuthentication]: the regexes [/auth/i], [/jwt/i], [/token/i],
    [/authenticate/i], [/passport/i], [/req\.user/] and [/authorization/i]
    tested on the file content. *)
Definition detectAuthentication (r : route) (content : string) : bool :=
  existsb (fun pattern => ContentScan.test pattern content)
    [ContentScan.ilit "auth"; ContentScan.ilit "jwt"; ContentScan.ilit "token";
     ContentScan.ilit "authenticate"; ContentScan.ilit "passport"; ContentScan.lit "req.user";
     ContentScan.ilit "authorization"].

End EnhancedParser.

(** ** Shapes of text used to state the properties of [formatCode] *)

Module TextShape.

(** No character of [s] is [c]. *)
Definition free_of (c : ascii) (s : string) : Prop := forall x, In x (list_ascii_of_string s) -> x <> c.

(** [s] does not start with white space. *)
Definition lead_ok (s : string) : Prop :=
  match s with
  | String c _ => is_space c = false
  | EmptyString => True
  end.

(** [s] is empty or does not start with a word character ([\w]). *)
Definition lead_nonword (s : string) : Prop :=
  match s with
  | String c _ => Parser.is_word c = false
  | EmptyString => True
  end.

(** The position of the first occurrence of [x] in [l] ([length l] when
    [x] does not occur). *)
Fixpoint first_index (x : string) (l : list string) : nat :=
  match l with
  | [] => 0
  | y :: l' => if String.eqb x y then 0 else S (first_index x l')
  end.

(** No match of [/:(\w+)/] starts in [s]: no [:] of [s] is followed by a
    word character of [s]. *)
Fixpoint no_colon_word (s : string) : bool :=
  match s with
  | EmptyString => true
  | String c r =>
      match r with
      | String d _ => negb (Ascii.eqb c ":" && Parser.is_word d)
      | EmptyString => true
      end && no_colon_word r
  end.

(** A match [:name] of [/:(\w+)/g] with the text [gap] that follows it up to
    the next match, as the pair [(name, gap)]: [name] is a non-empty run of
    word characters, [gap] does not continue it, and no match starts in
    [gap]. *)
Definition token_ok (t : string * string) : bool :=
  match fst t with EmptyString => false | _ => true end &&
  forallb Parser.is_word (list_ascii_of_string (fst t)) &&
  match snd t with String c _ => negb (Parser.is_word c) | EmptyString => true end &&
  no_colon_word (snd t).

(** The text [:name1 gap1 :name2 gap2 ...] of the pairs [(name, gap)]. *)
Fixpoint render_tokens (ts : list (string * string)) : string :=
  match ts with
  | [] => EmptyString
  | t :: ts' => String ":" (fst t ++ snd t ++ render_tokens ts')
  end.

End TextShape.

(** * Properties *)

Open Scope list_scope.

(** ** Walker *)

Section WalkerProofs.

Import Scanner.

Lemma entry_ind' (P : entry -> Prop)
  (Hnone : forall n, P (EDir n None))
  (Hsome : forall n es, Forall P es -> P (EDir n (Some es)))
  (Hfile : forall n st c, P (EFile n st c))
  (Hother : forall n, P (EOther n)) :
  forall e, P e.
Proof.
  fix IH 1. intros [n [es|] | n st c | n].
  - apply Hsome. induction es as [|x r IHr]; constructor; [apply IH | exact IHr].
  - apply Hnone.
  - apply Hfile.
  - apply Hother.
Qed.

Lemma walk_concat_fst (ws : list walk) :
  fst (walk_concat ws) = List.concat (map fst ws).
Proof. induction ws as [|w r IH]; simpl; [reflexivity | now rewrite IH]. Qed.

Lemma walk_concat_app {A} (f : A -> walk) (l1 l2 : list A) :
  walk_concat (map f (l1 ++ l2)) = walk_app (walk_concat (map f l1)) (walk_concat (map f l2)).
Proof.
  induction l1 as [|x r IH]; simpl.
  - destruct (walk_concat (map f l2)); reflexivity.
  - rewrite IH. unfold walk_app; simpl. now rewrite !app_assoc.
Qed.

Lemma searchEntry_sound (chr : string -> bool) (o : options) :
  forall e dir f, In f (fst (searchEntry chr o dir e)) ->
  forall es, In e es -> reached o dir es f.
Proof.
  induction e as [n | n es' IH | n st c | n] using entry_ind';
    intros dir f Hf es Hin; simpl in Hf.
  - destruct (isExcludedDirectory n); simpl in Hf; contradiction.
  - destruct (isExcludedDirectory n) eqn:Hex; simpl in Hf; [contradiction|].
    rewrite walk_concat_fst, map_map in Hf.
    apply in_concat in Hf as [l [Hl Hfl]].
    apply in_map_iff in Hl as [e' [He' Hin']]; subst l.
    rewrite Forall_forall in IH.
    eapply reached_dir; [exact Hin | exact Hex |].
    exact (IH e' Hin' _ _ Hfl es' Hin').
  - destruct (shouldProcessFile o n st) eqn:Hs; simpl in Hf; [|contradiction].
    destruct (containsRoutes chr c); simpl in Hf; [|contradiction].
    destruct Hf as [<- | []].
    eapply reached_file; eassumption.
  - contradiction.
Qed.

Lemma searchDirectory_sound (chr : string -> bool) (o : options) dir es f :
  In f (fst (searchDirectory chr o dir (Some es))) -> reached o dir es f.
Proof.
  simpl. rewrite walk_concat_fst, map_map. intros Hf.
  apply in_concat in Hf as [l [Hl Hfl]].
  apply in_map_iff in Hl as [e [He Hin]]; subst l.
  exact (searchEntry_sound chr o e dir f Hfl es Hin).
Qed.

Lemma searchDirectory_skip_unreadable (chr : string -> bool) (o : options) dir es1 es2 n :
  isExcludedDirectory n = false ->
  searchDirectory chr o dir (Some (es1 ++ EDir n None :: es2)) =
  walk_app (searchDirectory chr o dir (Some es1))
           (walk_app ([], [join dir n]) (searchDirectory chr o dir (Some es2))).
Proof.
  intros Hex. simpl. rewrite walk_concat_app. simpl. now rewrite Hex.
Qed.

Lemma searchDirectory_app (chr : string -> bool) (o : options) dir es1 es2 :
  searchDirectory chr o dir (Some (es1 ++ es2)) =
  walk_app (searchDirectory chr o dir (Some es1)) (searchDirectory chr o dir (Some es2)).
Proof. simpl. apply walk_concat_app. Qed.

End WalkerProofs.

Lemma prefix_refl (s : string) : prefix s s = true.
Proof.
  induction s as [|c s IH]; simpl; [reflexivity|].
  destruct (ascii_dec c c) as [_|Hc]; [exact IH | now destruct Hc].
Qed.

Lemma includes_refl (s : string) : includes s s = true.
Proof.
  destruct s as [|c r]; [reflexivity|].
  change (includes (String c r) (String c r))
    with (prefix (String c r) (String c r) || includes r (String c r)).
  now rewrite prefix_refl.
Qed.

(** C7: the walker's output is sorted in code-unit order; each element is
    a file below the root reached only through directories that pass the
    directory exclusion and it passes the file filter (extension, test and
    config names, size ceiling); a subdirectory whose listing fails is
    skipped, reported in the warning log, and the rest of the walk is
    unchanged. *)
Theorem findRouteFiles_sorted_filtered (chr : string -> bool) (o : Scanner.options)
    (root : string) (es : list Scanner.entry) :
  let out := fst (Scanner.findRouteFiles chr o root (Some es)) in
  Sorted (fun x y => String.leb x y = true) out /\
  (forall f, In f out -> Scanner.reached o root es f) /\
  (forall es1 es2 n, es = es1 ++ Scanner.EDir n None :: es2 ->
     Scanner.isExcludedDirectory n = false ->
     out = fst (Scanner.findRouteFiles chr o root (Some (es1 ++ es2))) /\
     In (join root n) (snd (Scanner.findRouteFiles chr o root (Some es)))).
Proof.
  intros out. unfold out, Scanner.findRouteFiles. cbv zeta. cbn [fst snd]. split; [|split].
  - exact (Scanner.StringSort.Sorted_sort _).
  - intros f Hf.
    apply (Permutation_in _ (Permutation_sym (Scanner.StringSort.Permuted_sort _))) in Hf.
    exact (searchDirectory_sound chr o root es f Hf).
  - intros es1 es2 n -> Hex.
    rewrite (searchDirectory_skip_unreadable chr o root es1 es2 n Hex),
            (searchDirectory_app chr o root es1 es2).
    unfold Scanner.walk_app; simpl. split.
    + reflexivity.
    + apply in_or_app. right. now left.
Qed.

(** C10: a directory is pruned when its lower-cased name merely contains
    one of the excluded tokens; "templates", "cached-data" and "buildings"
    are pruned although none of them is in the list, and a pruned
    directory contributes nothing, whatever it contains. *)
Theorem isExcludedDirectory_substring :
  (forall d, Scanner.isExcludedDirectory d = true <->
     exists p, In p Scanner.excludeDirs /\ includes (toLowerCase d) (toLowerCase p) = true) /\
  (Scanner.isExcludedDirectory "templates" = true /\
   existsb (String.eqb "templates") Scanner.excludeDirs = false) /\
  (Scanner.isExcludedDirectory "cached-data" = true /\
   existsb (String.eqb "cached-data") Scanner.excludeDirs = false) /\
  (Scanner.isExcludedDirectory "buildings" = true /\
   existsb (String.eqb "buildings") Scanner.excludeDirs = false) /\
  (forall chr o dir es1 es2 d l, Scanner.isExcludedDirectory d = true ->
     Scanner.searchDirectory chr o dir (Some (es1 ++ Scanner.EDir d l :: es2)) =
     Scanner.searchDirectory chr o dir (Some (es1 ++ es2))).
Proof.
  split; [|split; [split; reflexivity|split; [split; reflexivity|split; [split; reflexivity|]]]].
  - intros d. unfold Scanner.isExcludedDirectory. rewrite existsb_exists. split.
    + intros [p [Hin Hp]]. exists p. split; [exact Hin|].
      apply orb_true_iff in Hp as [Heq|Hinc]; [|exact Hinc].
      apply String.eqb_eq in Heq. rewrite Heq. apply includes_refl.
    + intros [p [Hin Hp]]. exists p. split; [exact Hin|]. now rewrite Hp, orb_true_r.
  - intros chr o dir es1 es2 d l Hex.
    rewrite !searchDirectory_app. f_equal. simpl. rewrite Hex.
    unfold Scanner.walk_app; simpl. now destruct (Scanner.walk_concat _).
Qed.

Lemma findRouteFiles_sorted_filtered_witness :
  Scanner.isExcludedDirectory "locked" = false /\
  fst (Scanner.findRouteFiles (fun _ => true) Scanner.default_options "app"
         (Some [Scanner.EFile "users.js" (Some 100) (Some "app.get('/users', h)");
                Scanner.EDir "locked" None;
                Scanner.EDir "routes" (Some [Scanner.EFile "api.js" (Some 10) (Some "x")])])) =
  fst (Scanner.findRouteFiles (fun _ => true) Scanner.default_options "app"
         (Some [Scanner.EFile "users.js" (Some 100) (Some "app.get('/users', h)");
                Scanner.EDir "routes" (Some [Scanner.EFile "api.js" (Some 10) (Some "x")])])).
Proof.
  split; [reflexivity|].
  pose proof (findRouteFiles_sorted_filtered (fun _ => true) Scanner.default_options "app"
    [Scanner.EFile "users.js" (Some 100) (Some "app.get('/users', h)");
     Scanner.EDir "locked" None;
     Scanner.EDir "routes" (Some [Scanner.EFile "api.js" (Some 10) (Some "x")])]) as H.
  cbv zeta in H.
  exact (proj1 (proj2 (proj2 H)
    [Scanner.EFile "users.js" (Some 100) (Some "app.get('/users', h)")]
    [Scanner.EDir "routes" (Some [Scanner.EFile "api.js" (Some 10) (Some "x")])]
    "locked" eq_refl eq_refl)).
Defined.

Lemma isExcludedDirectory_substring_witness :
  Scanner.isExcludedDirectory "templates" = true /\
  Scanner.searchDirectory (fun _ => true) Scanner.default_options "app"
    (Some ([] ++ Scanner.EDir "templates" (Some [Scanner.EFile "a.js" (Some 1) (Some "x")])
              :: [Scanner.EFile "b.js" (Some 1) (Some "y")])) =
  Scanner.searchDirectory (fun _ => true) Scanner.default_options "app"
    (Some ([] ++ [Scanner.EFile "b.js" (Some 1) (Some "y")])).
Proof.
  split; [reflexivity|].
  exact (proj2 (proj2 (proj2 (proj2 isExcludedDirectory_substring)))
    (fun _ => true) Scanner.default_options "app" []
    [Scanner.EFile "b.js" (Some 1) (Some "y")] "templates"
    (Some [Scanner.EFile "a.js" (Some 1) (Some "x")]) eq_refl).
Defined.

(** ** Path parameters *)

Section ParameterProofs.

Import Parser Inputs.

Lemma string_app_assoc (a b c : string) : ((a ++ b) ++ c)%string = (a ++ (b ++ c))%string.
Proof. induction a as [|x a IH]; simpl; [reflexivity | now rewrite IH]. Qed.

Lemma string_app_empty (a : string) : (a ++ EmptyString)%string = a.
Proof. induction a as [|x a IH]; simpl; [reflexivity | now rewrite IH]. Qed.

Lemma colon_matches_lit (s r : string) :
  forallb (fun c => negb (Ascii.eqb c ":")) (list_ascii_of_string s) = true ->
  colon_matches MOut (s ++ r) = colon_matches MOut r.
Proof.
  induction s as [|c s IH]; simpl; [reflexivity|].
  intros H. apply andb_prop in H as [Hc Hs].
  apply negb_true_iff in Hc. rewrite Hc. exact (IH Hs).
Qed.

Lemma colon_matches_word (n w r : string) :
  forallb is_word (list_ascii_of_string n) = true ->
  colon_matches (MIn w) (n ++ r) = colon_matches (MIn (w ++ n)) r.
Proof.
  revert w. induction n as [|c n IH]; intros w H; simpl.
  - now rewrite string_app_empty.
  - simpl in H. apply andb_prop in H as [Hc Hn]. rewrite Hc, (IH _ Hn).
    now rewrite string_app_assoc.
Qed.

Lemma colon_matches_end (w : string) (segs : list segment) :
  colon_matches (MIn w) (render_path segs) = w :: colon_matches MOut (render_path segs).
Proof. destruct segs as [|[s|n] segs]; reflexivity. Qed.

Lemma extract_names (segs : list segment) :
  forallb segment_ok segs = true ->
  colon_matches MOut (render_path segs) = param_names segs.
Proof.
  induction segs as [|[s|n] segs IH]; simpl; [reflexivity| |]; intros H;
    apply andb_prop in H as [Hsg Hsegs].
  - rewrite (colon_matches_lit s _ Hsg). exact (IH Hsegs).
  - apply andb_prop in Hsg as [Hne Hw].
    destruct n as [|c n]; [discriminate Hne|].
    simpl in Hw. apply andb_prop in Hw as [Hc Hn]. simpl. rewrite Hc.
    rewrite (colon_matches_word n _ _ Hn), colon_matches_end. simpl.
    now rewrite (IH Hsegs).
Qed.

Lemma colon_step (st : mstate) (r : string) :
  st = MOut \/ st = MColon -> colon_matches st (String ":" r) = colon_matches MColon r.
Proof. intros [->| ->]; reflexivity. Qed.

Lemma gap_run (g : string) (L : list string) (r : string) :
  (forall st, st = MOut \/ st = MColon -> colon_matches st r = L) ->
  forall st, st = MOut \/ st = MColon -> TextShape.no_colon_word g = true ->
  (st = MColon -> TextShape.lead_nonword g) -> colon_matches st (g ++ r) = L.
Proof.
  intros Hr. induction g as [|c g IH]; intros st Hst Hg Hl; [exact (Hr st Hst)|].
  change (String c g ++ r)%string with (String c (g ++ r)).
  assert (Hc : colon_matches st (String c (g ++ r)) =
               colon_matches (if Ascii.eqb c ":" then MColon else MOut) (g ++ r)).
  { destruct Hst as [->| ->]; [reflexivity|].
    specialize (Hl eq_refl). simpl in Hl. simpl. rewrite Hl. reflexivity. }
  rewrite Hc. simpl in Hg. apply andb_prop in Hg as [Hd Hg].
  apply IH; [destruct (Ascii.eqb c ":"); auto|exact Hg|].
  intros E. destruct (Ascii.eqb_spec c ":") as [->|]; [|discriminate].
  destruct g as [|d g]; simpl; [exact I|]. simpl in Hd.
  destruct (is_word d); [discriminate|reflexivity].
Qed.

Lemma tokens_run (ts : list (string * string)) :
  forall st, st = MOut \/ st = MColon -> forallb TextShape.token_ok ts = true ->
  colon_matches st (TextShape.render_tokens ts) = map fst ts.
Proof.
  induction ts as [|[n g] ts IH]; intros st Hst Hts; [destruct Hst as [->| ->]; reflexivity|].
  simpl in Hts. apply andb_prop in Hts as [Ht Hts].
  assert (IH' : forall st, st = MOut \/ st = MColon ->
            colon_matches st (TextShape.render_tokens ts) = map fst ts)
    by (intros st' Hst'; exact (IH st' Hst' Hts)).
  clear IH. rename IH' into IH.
  unfold TextShape.token_ok in Ht. cbn [fst snd] in Ht.
  apply andb_prop in Ht as [Ht Hng]. apply andb_prop in Ht as [Ht Hlg].
  apply andb_prop in Ht as [Hne Hw].
  cbn [TextShape.render_tokens fst snd map]. rewrite (colon_step _ _ Hst).
  destruct n as [|c n]; [discriminate|]. simpl in Hw. apply andb_prop in Hw as [Hc Hw].
  simpl. rewrite Hc, (colon_matches_word n _ _ Hw). simpl.
  destruct g as [|d g].
  - simpl. destruct ts as [|t ts']; [reflexivity|].
    cbn [TextShape.render_tokens]. simpl. f_equal.
    rewrite <- (colon_step MOut _ (or_introl eq_refl)). apply IH. now left.
  - simpl in Hlg. simpl. destruct (is_word d); [discriminate|]. f_equal.
    simpl in Hng. apply andb_prop in Hng as [Hd Hng].
    apply (gap_run g _ _ IH); [destruct (Ascii.eqb d ":"); auto|exact Hng|].
    intros E. destruct (Ascii.eqb_spec d ":") as [->|]; [|discriminate].
    destruct g as [|e g]; simpl; [exact I|]. simpl in Hd.
    destruct (is_word e); [discriminate|reflexivity].
Qed.

Lemma no_colon_word_app_r (a b : string) :
  TextShape.no_colon_word (a ++ b) = true -> TextShape.no_colon_word b = true.
Proof.
  induction a as [|c a IH]; simpl; [exact (fun h => h)|].
  intros H. apply andb_prop in H as [_ H]. exact (IH H).
Qed.

Lemma word_split (g : string) :
  exists w rest, g = (w ++ rest)%string /\ forallb is_word (list_ascii_of_string w) = true /\
                 TextShape.lead_nonword rest.
Proof.
  induction g as [|c g IH].
  - exists EmptyString, EmptyString. repeat split.
  - destruct (is_word c) eqn:Ec.
    + destruct IH as [w [rest [-> [Hw Hr]]]]. exists (String c w), rest.
      split; [reflexivity|split; [simpl; rewrite Ec; exact Hw|exact Hr]].
    + exists EmptyString, (String c g). split; [reflexivity|split; [reflexivity|exact Ec]].
Qed.

Lemma colon_decompose (p : string) :
  exists gap0 ts, p = (gap0 ++ TextShape.render_tokens ts)%string /\
    TextShape.no_colon_word gap0 = true /\ forallb TextShape.token_ok ts = true.
Proof.
  induction p as [|c p IH].
  - exists EmptyString, []. repeat split.
  - destruct IH as [g0 [ts [-> [Hg Hts]]]].
    destruct (Ascii.eqb_spec c ":") as [->|Hc].
    + destruct g0 as [|d g0'] eqn:Eg.
      * exists (String ":" EmptyString), ts. split; [reflexivity|split; [reflexivity|exact Hts]].
      * destruct (is_word d) eqn:Ed.
        -- destruct (word_split (String d g0')) as [w [rest [Hs [Hw Hr]]]].
           exists EmptyString, ((w, rest) :: ts). rewrite Hs.
           split; [simpl; now rewrite string_app_assoc|split; [reflexivity|]].
           simpl. rewrite Hts, andb_true_r. unfold TextShape.token_ok. cbn [fst snd].
           rewrite Hw. rewrite Hs in Hg. rewrite (no_colon_word_app_r _ _ Hg), andb_true_r.
           destruct w as [|x w].
           ++ simpl in Hs. rewrite <- Hs in Hr. simpl in Hr. congruence.
           ++ destruct rest as [|y rest]; [reflexivity|]. simpl in Hr. now rewrite Hr.
        -- exists (String ":" (String d g0')), ts. split; [reflexivity|split; [|exact Hts]].
           simpl. rewrite Ed. simpl in Hg. exact Hg.
    + exists (String c g0), ts. split; [reflexivity|split; [|exact Hts]].
      simpl. rewrite Hg, andb_true_r.
      destruct g0 as [|d g0]; [reflexivity|].
      destruct (Ascii.eqb_spec c ":"); [contradiction|reflexivity].
Qed.

End ParameterProofs.

(** C5 (amended): [extractParameters] returns one required path parameter
    of type string per match of [/:(\w+)/g] in the raw path, in the order of
    the matches; a name that occurs twice gives two entries (nothing is
    merged). The matches are described by a decomposition of the path into
    a text [gap0] in which no match starts, followed by pairs [(name, gap)]
    written [:name gap], where [name] is a non-empty run of word characters
    that [gap] does not continue and no match starts in [gap]: the names of
    the parameters are [names] exactly when the path has such a
    decomposition whose names are [names]. *)
Theorem extractParameters_occurrences :
  (forall p, Forall (fun x => Parser.p_in x = "path" /\ Parser.p_required x = true /\
                              Parser.p_type x = "string") (Parser.extractParameters p)) /\
  (forall p names,
     map Parser.p_name (Parser.extractParameters p) = names <->
     exists gap0 ts, p = (gap0 ++ TextShape.render_tokens ts)%string /\
       TextShape.no_colon_word gap0 = true /\ forallb TextShape.token_ok ts = true /\
       map fst ts = names).
Proof.
  assert (Hn : forall p, map Parser.p_name (Parser.extractParameters p) = Parser.colon_matches Parser.MOut p).
  { intros p. unfold Parser.extractParameters. rewrite map_map. simpl. apply map_id. }
  assert (Hd : forall gap0 ts, TextShape.no_colon_word gap0 = true -> forallb TextShape.token_ok ts = true ->
     Parser.colon_matches Parser.MOut (gap0 ++ TextShape.render_tokens ts) = map fst ts).
  { intros gap0 ts Hg Hts. apply (gap_run gap0 _ _ (fun st Hst => tokens_run ts st Hst Hts));
      [now left|exact Hg|discriminate]. }
  split.
  - intros p. unfold Parser.extractParameters. apply Forall_map, Forall_forall.
    intros x _. simpl. auto.
  - intros p names. rewrite Hn. split.
    + intros <-. destruct (colon_decompose p) as [gap0 [ts [Hp [Hg Hts]]]].
      exists gap0, ts. split; [exact Hp|split; [exact Hg|split; [exact Hts|]]].
      rewrite Hp. symmetry. exact (Hd _ _ Hg Hts).
    + intros [gap0 [ts [-> [Hg [Hts <-]]]]]. exact (Hd _ _ Hg Hts).
Qed.

Lemma extractParameters_occurrences_witness :
  map Parser.p_name (Parser.extractParameters "/:from-:to/files/:name.:ext?") = ["from"; "to"; "name"; "ext"].
Proof.
  apply (proj2 (proj2 extractParameters_occurrences "/:from-:to/files/:name.:ext?" _)).
  exists "/", [("from", "-"); ("to", "/files/"); ("name", "."); ("ext", "?")].
  split; [reflexivity|split; [reflexivity|split; reflexivity]].
Defined.

(** C5 counterexample: for [/users/:id/posts/:id] the parameter list has two
    entries named [id], so duplicates are not merged by name. *)
Lemma extractParameters_duplicate_names :
  map Parser.p_name (Parser.extractParameters "/users/:id/posts/:id") = ["id"; "id"] /\
  ~ NoDup (map Parser.p_name (Parser.extractParameters "/users/:id/posts/:id")).
Proof.
  split; [reflexivity|].
  change (map Parser.p_name (Parser.extractParameters "/users/:id/posts/:id"))
    with ["id"; "id"].
  intros H. inversion H as [|x l Hnin _]. apply Hnin. now left.
Qed.

(** ** Parse failures *)

(** C2: [parseFile] always returns normally, whatever the file read and the
    parser do; when the file content does not parse, it returns no routes and
    one warning. *)
Theorem parseFile_never_throws
    (readFile : string -> result string) (parse : string -> result Parser.program)
    (filePath : string) :
  (exists routes warnings, Parser.parseFile readFile parse filePath = Ok (routes, warnings)) /\
  (forall content message, readFile filePath = Ok content -> parse content = Throw message ->
     Parser.parseFile readFile parse filePath =
     Ok ([], [("Warning: Could not parse " ++ filePath ++ ": " ++ message)%string])).
Proof.
  unfold Parser.parseFile, try_catch, bind. split.
  - destruct (readFile filePath) as [content|m]; [|eauto].
    destruct (parse content) as [ast|m]; eauto.
  - intros content message -> ->. reflexivity.
Qed.

Lemma parseFile_never_throws_witness :
  Parser.parseFile (fun _ => Ok "app.get('/users', (req, res) => {")
                   (fun _ => Throw "Unexpected token (1:33)") "routes/users.js" =
  Ok ([], ["Warning: Could not parse routes/users.js: Unexpected token (1:33)"]).
Proof.
  exact (proj2 (parseFile_never_throws (fun _ => Ok "app.get('/users', (req, res) => {")
                   (fun _ => Throw "Unexpected token (1:33)") "routes/users.js")
           "app.get('/users', (req, res) => {" "Unexpected token (1:33)" eq_refl eq_refl).
Defined.

(** ** Analyses: template strategy, validation and retries *)

Section AnalysisProofs.

Import Parser AIAnalyzer.

Variables (create : nat -> string -> completion) (extractJSON : string -> string)
          (parseJSON : string -> result json).

Lemma retry_returns (r : route) : forall n k,
  exists a, retry create extractJSON parseJSON r k n = Ok a.
Proof.
  induction n as [|n IH]; intros k; simpl; [eauto|].
  unfold try_catch. destruct (attempt create extractJSON parseJSON r k); eauto.
Qed.

Lemma retry_all_fail (r : route) : forall n k,
  (forall j, k <= j < k + n -> exists e, attempt create extractJSON parseJSON r j = Throw e) ->
  retry create extractJSON parseJSON r k n = Ok (generateFallbackAnalysis r).
Proof.
  induction n as [|n IH]; intros k H; simpl; [reflexivity|].
  destruct (H k ltac:(lia)) as [e He]. unfold try_catch. rewrite He.
  apply IH. intros j Hj. apply H. lia.
Qed.

Lemma retry_result (r : route) : forall n k e,
  retry create extractJSON parseJSON r k n = Ok e ->
  e = generateFallbackAnalysis r \/
  exists j, attempt create extractJSON parseJSON r j = Ok e.
Proof.
  induction n as [|n IH]; intros k e H; simpl in H.
  - injection H as <-. now left.
  - unfold try_catch in H.
    destruct (attempt create extractJSON parseJSON r k) as [a|m] eqn:Ha.
    + injection H as <-. right. eauto.
    + exact (IH _ _ H).
Qed.

(** A timeout or transport error, an empty reply, or a reply that does not
    parse makes the attempt throw. *)
Lemma attempt_fails (r : route) (k : nat) :
  (exists m, create k (buildAnalysisPrompt r) = Failed m) \/
  create k (buildAnalysisPrompt r) = Completed None \/
  (exists c m, create k (buildAnalysisPrompt r) = Completed (Some c) /\
               parseJSON (extractJSON (trim c)) = Throw m) ->
  exists e, attempt create extractJSON parseJSON r k = Throw e.
Proof.
  unfold attempt. intros [[m Hm] | [Hn | [c [m [Hc Hp]]]]].
  - rewrite Hm. eexists. reflexivity.
  - rewrite Hn. eexists. reflexivity.
  - rewrite Hc. simpl. destruct (String.eqb (trim c) EmptyString); [eexists; reflexivity|].
    rewrite Hp. eexists. reflexivity.
Qed.

Lemma attempt_validated (r : route) (k : nat) (e : json) :
  attempt create extractJSON parseJSON r k = Ok e ->
  exists a, validateAndEnhanceAnalysis a r = Ok e.
Proof.
  unfold attempt.
  destruct (create k (buildAnalysisPrompt r)) as [[c|]|m]; simpl; try discriminate.
  destruct (String.eqb (trim c) EmptyString); [discriminate|].
  destruct (parseJSON (extractJSON (trim c))) as [a|m]; simpl; [eauto | discriminate].
Qed.

End AnalysisProofs.

Lemma validate_requestSchema (a : json) (r : Parser.route) (e : json) :
  AIAnalyzer.validateAndEnhanceAnalysis a r = Ok e ->
  prop e "requestSchema" =
  (if String.eqb (Parser.method r) "GET" && truthy (or (prop a "requestSchema") JNull)
   then JNull else or (prop a "requestSchema") JNull).
Proof.
  unfold AIAnalyzer.validateAndEnhanceAnalysis, bind.
  destruct (get a "summary"); [|discriminate].
  destruct (AIAnalyzer.addPathParameters _ _); [|discriminate].
  intros H. injection H as <-. reflexivity.
Qed.

(** C3: [analyzeRoute] always returns normally; when each of the three
    attempts meets a service failure (rejection such as a timeout, no
    content, or a reply that neither parse accepts), the result is the
    template analysis [generateFallbackAnalysis] of the same route. *)
Theorem analyzeRoute_fallback_after_failures
    (create : nat -> string -> AIAnalyzer.completion) (extractJSON : string -> string)
    (parseJSON : string -> result json) (r : Parser.route) :
  (exists a, AIAnalyzer.analyzeRoute create extractJSON parseJSON r = Ok a) /\
  ((forall k, 1 <= k <= 3 ->
      (exists m, create k (AIAnalyzer.buildAnalysisPrompt r) = AIAnalyzer.Failed m) \/
      create k (AIAnalyzer.buildAnalysisPrompt r) = AIAnalyzer.Completed None \/
      (exists c m, create k (AIAnalyzer.buildAnalysisPrompt r) = AIAnalyzer.Completed (Some c) /\
                   parseJSON (extractJSON (trim c)) = Throw m)) ->
   AIAnalyzer.analyzeRoute create extractJSON parseJSON r =
   Ok (AIAnalyzer.generateFallbackAnalysis r)).
Proof.
  split; [apply retry_returns|].
  intros H. unfold AIAnalyzer.analyzeRoute. apply retry_all_fail.
  intros j Hj. apply attempt_fails, H. unfold AIAnalyzer.maxRetries in Hj. lia.
Qed.

Lemma analyzeRoute_fallback_after_failures_witness :
  AIAnalyzer.analyzeRoute (fun _ _ => AIAnalyzer.Failed "Request timed out") (fun s => s)
    (fun _ => Throw "Unexpected token") Inputs.users_get_route =
  Ok (AIAnalyzer.generateFallbackAnalysis Inputs.users_get_route).
Proof.
  apply (proj2 (analyzeRoute_fallback_after_failures
    (fun _ _ => AIAnalyzer.Failed "Request timed out") (fun s => s)
    (fun _ => Throw "Unexpected token") Inputs.users_get_route)).
  intros k _. left. exists "Request timed out". reflexivity.
Defined.

(** C4: the template analysis always has a non-null (object) response
    schema; its request schema is non-null exactly for POST, PUT and PATCH,
    so it is null for GET and DELETE. *)
Theorem generateFallbackAnalysis_schemas (r : Parser.route) :
  prop (AIAnalyzer.generateFallbackAnalysis r) "responseSchema" <> JNull /\
  truthy (prop (AIAnalyzer.generateFallbackAnalysis r) "responseSchema") = true /\
  truthy (prop (AIAnalyzer.generateFallbackAnalysis r) "requestSchema") =
    AIAnalyzer.is_body_method (Parser.method r) /\
  (Parser.method r = "GET" \/ Parser.method r = "DELETE" ->
   prop (AIAnalyzer.generateFallbackAnalysis r) "requestSchema" = JNull).
Proof.
  unfold AIAnalyzer.generateFallbackAnalysis. simpl.
  split; [discriminate|]. split; [reflexivity|]. split.
  - now destruct (AIAnalyzer.is_body_method (Parser.method r)).
  - intros [H|H]; rewrite H; reflexivity.
Qed.

Lemma generateFallbackAnalysis_schemas_witness :
  prop (AIAnalyzer.generateFallbackAnalysis
    {| Parser.method := "DELETE"; Parser.path := "/users/:id"; Parser.handler := JNull;
       Parser.handlerCode := None; Parser.middleware := [];
       Parser.parameters := Parser.extractParameters "/users/:id"; Parser.file := "app.js" |})
    "requestSchema" = JNull.
Proof.
  apply (proj2 (proj2 (proj2 (generateFallbackAnalysis_schemas
    {| Parser.method := "DELETE"; Parser.path := "/users/:id"; Parser.handler := JNull;
       Parser.handlerCode := None; Parser.middleware := [];
       Parser.parameters := Parser.extractParameters "/users/:id"; Parser.file := "app.js" |})))).
  right. reflexivity.
Defined.

(** C9: validation forces the request schema of a GET route to [null] even
    when the service returned one, keeps a (truthy) request schema returned
    for a DELETE route, and so every analysis [analyzeRoute] returns for a
    GET route has a [null] request schema. *)
Theorem validate_get_requestSchema_null :
  (forall a r e, Parser.method r = "GET" ->
     AIAnalyzer.validateAndEnhanceAnalysis a r = Ok e -> prop e "requestSchema" = JNull) /\
  (forall a r e, Parser.method r = "DELETE" -> truthy (prop a "requestSchema") = true ->
     AIAnalyzer.validateAndEnhanceAnalysis a r = Ok e ->
     prop e "requestSchema" = prop a "requestSchema") /\
  (forall create extractJSON parseJSON r e, Parser.method r = "GET" ->
     AIAnalyzer.analyzeRoute create extractJSON parseJSON r = Ok e ->
     prop e "requestSchema" = JNull).
Proof.
  assert (Hget : forall a r e, Parser.method r = "GET" ->
     AIAnalyzer.validateAndEnhanceAnalysis a r = Ok e -> prop e "requestSchema" = JNull).
  { intros a r e Hm Hv. rewrite (validate_requestSchema a r e Hv), Hm. simpl.
    unfold or. destruct (truthy (prop a "requestSchema")) eqn:Ht; rewrite ?Ht; reflexivity. }
  split; [exact Hget|split].
  - intros a r e Hm Ht Hv. rewrite (validate_requestSchema a r e Hv), Hm. simpl.
    unfold or. now rewrite Ht.
  - intros create extractJSON parseJSON r e Hm Ha.
    destruct (retry_result create extractJSON parseJSON r _ _ _ Ha) as [->|[j Hj]].
    + unfold AIAnalyzer.generateFallbackAnalysis. simpl. rewrite Hm. reflexivity.
    + destruct (attempt_validated create extractJSON parseJSON r j e Hj) as [a Hv].
      exact (Hget a r e Hm Hv).
Qed.

Lemma validate_get_requestSchema_null_witness :
  (exists e, AIAnalyzer.validateAndEnhanceAnalysis Inputs.service_analysis_with_body Inputs.users_get_route = Ok e /\
             prop e "requestSchema" = JNull) /\
  (exists e, AIAnalyzer.validateAndEnhanceAnalysis Inputs.service_analysis_with_body Inputs.delete_user_route = Ok e /\
             prop e "requestSchema" = prop Inputs.service_analysis_with_body "requestSchema").
Proof.
  split; eexists; split; [reflexivity| | reflexivity |].
  - exact (proj1 validate_get_requestSchema_null Inputs.service_analysis_with_body Inputs.users_get_route _
             eq_refl eq_refl).
  - exact (proj1 (proj2 validate_get_requestSchema_null) Inputs.service_analysis_with_body
             Inputs.delete_user_route _ eq_refl eq_refl eq_refl).
Defined.

Section GeneratorProofs.

Lemma groupResultsByPath_eq (rs : list Generator.result_pair) :
  Generator.groupResultsByPath rs =
  if existsb (fun res => Generator.inherited_key (Parser.path (fst res))) rs
  then Throw "grouped[path].push is not a function" else Ok (Generator.group_results rs).
Proof.
  unfold Generator.groupResultsByPath, Generator.group_results.
  assert (Hth : forall rs' m, fold_left (fun acc res =>
      grouped <- acc ;;
      (if Generator.inherited_key (Parser.path (fst res)) then Throw "grouped[path].push is not a function"
       else Ok (Generator.group_add (Parser.path (fst res)) res grouped))) rs' (Throw m) = Throw m).
  { induction rs' as [|x rs' IH]; intros m; simpl; [reflexivity|exact (IH m)]. }
  generalize (@nil (string * list Generator.result_pair)) as g.
  induction rs as [|x rs IH]; intros g; simpl; [reflexivity|].
  destruct (Generator.inherited_key (Parser.path (fst x))); simpl; [apply Hth|apply IH].
Qed.

Lemma generateSpec_eq o rs :
  Generator.generateSpec o rs =
  if existsb (fun res => Generator.inherited_key (Parser.path (fst res))) rs
  then Throw "grouped[path].push is not a function"
  else (paths <- Generator.build_paths (Generator.group_results rs) [] ;;
        Ok (JObj [
    ("openapi", JStr "3.0.0");
    ("info", JObj [("title", JStr (Generator.title o)); ("version", JStr (Generator.version o));
                   ("description", JStr (Generator.description o ++ " (AI-Enhanced)"))]);
    ("servers", JArr [JObj [("url", JStr (Generator.baseUrl o)); ("description", JStr "Development server")]]);
    ("paths", JObj paths);
    ("components", JObj [("schemas", JObj (Generator.extractReusableSchemas rs));
                         ("responses", JObj []); ("parameters", JObj [])])
  ])).
Proof.
  unfold Generator.generateSpec. rewrite groupResultsByPath_eq.
  destruct (existsb (fun res => Generator.inherited_key (Parser.path (fst res))) rs); reflexivity.
Qed.

Lemma set_field_keys (k : string) (v : json) (fs : list (string * json)) (k' : string) :
  In k' (map fst (set_field k v fs)) <-> k = k' \/ In k' (map fst fs).
Proof.
  induction fs as [|[k0 v0] r IH]; simpl; [tauto|].
  destruct (String.eqb k k0) eqn:E; simpl.
  - apply String.eqb_eq in E; subst. tauto.
  - rewrite IH. tauto.
Qed.

Lemma group_add_keys k x g k' :
  In k' (map fst (Generator.group_add k x g)) <-> k = k' \/ In k' (map fst g).
Proof.
  induction g as [|[k0 xs] r IH]; simpl; [tauto|].
  destruct (String.eqb k k0) eqn:E; simpl.
  - apply String.eqb_eq in E; subst. tauto.
  - rewrite IH. tauto.
Qed.

Lemma group_fold_keys (rs : list Generator.result_pair) g k :
  In k (map fst (fold_left (fun g res => Generator.group_add (Parser.path (fst res)) res g) rs g)) <->
  In k (map fst g) \/ In k (map (fun x => Parser.path (fst x)) rs).
Proof.
  revert g. induction rs as [|x rs IH]; intros g; simpl; [tauto|].
  rewrite IH, group_add_keys. tauto.
Qed.

Lemma build_paths_keys g acc ps :
  Generator.build_paths g acc = Ok ps ->
  forall k, In k (map fst ps) <-> In k (map fst acc) \/ In k (map fst g).
Proof.
  revert acc. induction g as [|[p prs] rest IH]; intros acc H k; simpl in H.
  - injection H; intros <-. simpl. tauto.
  - destruct (Generator.path_item prs []) as [item|m]; simpl in H; [|discriminate].
    rewrite (IH _ H), set_field_keys. simpl. tauto.
Qed.

Lemma generateSpec_schemas o rs spec :
  Generator.generateSpec o rs = Ok spec ->
  Generator.spec_schemas spec = Generator.extractReusableSchemas rs.
Proof.
  rewrite generateSpec_eq. destruct (existsb (fun res => Generator.inherited_key (Parser.path (fst res))) rs); [discriminate|].
  destruct (Generator.build_paths _ _); simpl; [|discriminate].
  intros H; injection H; intros <-. reflexivity.
Qed.






End GeneratorProofs.

(** C1 (as the code has it): the keys of [paths] in a generated specification are
    exactly the raw paths of the routes; no step rewrites [:name] into [{name}]. *)
Theorem generateSpec_path_keys (o : Generator.options) (rs : list Generator.result_pair) spec :
  Generator.generateSpec o rs = Ok spec ->
  forall k, In k (map fst (Generator.spec_paths spec)) <-> In k (map (fun x => Parser.path (fst x)) rs).
Proof.
  rewrite generateSpec_eq. destruct (existsb (fun res => Generator.inherited_key (Parser.path (fst res))) rs); [discriminate|].
  destruct (Generator.build_paths _ _) as [ps|m] eqn:E; simpl; [|discriminate].
  intros H; injection H; intros <-. intros k.
  unfold Generator.spec_paths. cbn -[In map].
  rewrite (build_paths_keys _ _ _ E). unfold Generator.group_results.
  rewrite group_fold_keys. simpl. tauto.
Qed.

Lemma generateSpec_path_keys_witness :
  exists spec,
    Generator.generateSpec Generator.default_options
      [(Inputs.simple_route "GET" "/users/:id",
        AIAnalyzer.generateFallbackAnalysis (Inputs.simple_route "GET" "/users/:id"))] = Ok spec /\
    (In "/users/:id" (map fst (Generator.spec_paths spec)) <-> In "/users/:id" ["/users/:id"]).
Proof.
  eexists. split; [reflexivity|].
  exact (generateSpec_path_keys Generator.default_options
    [(Inputs.simple_route "GET" "/users/:id",
      AIAnalyzer.generateFallbackAnalysis (Inputs.simple_route "GET" "/users/:id"))] _ eq_refl "/users/:id").
Defined.

(** C1 counterexample: [app.get('/users/:id', handler)] is extracted with path
    [/users/:id], and the generated specification lists it under the key
    [/users/:id]; there is no key [/users/{id}]. *)
Lemma users_id_path_key_not_normalized :
  exists r, Parser.extractRoutes Inputs.users_id_ast Inputs.users_id_source "app.js" = [r] /\
  Parser.path r = "/users/:id" /\
  exists spec,
    Generator.generateSpec Generator.default_options [(r, AIAnalyzer.generateFallbackAnalysis r)] = Ok spec /\
    map fst (Generator.spec_paths spec) = ["/users/:id"] /\
    prop (prop spec "paths") "/users/{id}" = JUndef.
Proof.
  eexists. split; [reflexivity|]. split; [reflexivity|].
  eexists. split; [reflexivity|]. split; reflexivity.
Qed.

(** C6 (the parts that hold): [app.get('/users', handler)] is extracted as one
    route GET [/users] without parameters, and with the template analysis the
    [get] operation of [/users] has a 200 response whose schema has type [array]. *)
Theorem users_scenario_spec :
  exists r, Parser.extractRoutes Inputs.users_ast Inputs.users_source "app.js" = [r] /\
  Parser.method r = "GET" /\ Parser.path r = "/users" /\ Parser.parameters r = [] /\
  exists spec,
    Generator.generateSpec Generator.default_options [(r, AIAnalyzer.generateFallbackAnalysis r)] = Ok spec /\
    at_path spec ["paths"; "/users"; "get"; "responses"; "200"; "content"; "application/json";
                  "schema"; "type"]%string = JStr "array".
Proof.
  eexists. split; [reflexivity|]. split; [reflexivity|]. split; [reflexivity|]. split; [reflexivity|].
  eexists. split; reflexivity.
Qed.

(** C6 divergence: for the same route the template analysis has summary
    [List userss] (the plural [s] is appended to the already plural path
    segment), not [List users]; the CLI's analysis without the service has
    summary [GET /users]. *)
Lemma users_scenario_summary :
  exists r, Parser.extractRoutes Inputs.users_ast Inputs.users_source "app.js" = [r] /\
  prop (AIAnalyzer.generateFallbackAnalysis r) "summary" = JStr "List userss" /\
  prop (AIAnalyzer.generateFallbackAnalysis r) "summary" <> JStr "List users" /\
  prop (Cli.templateAnalysis r) "summary" = JStr "GET /users".
Proof.
  eexists. split; [reflexivity|]. split; [reflexivity|]. split; [discriminate|reflexivity].
Qed.




(** * Further properties of the generator, the analyzer and the CLI *)

Section GeneratorLookup.

Lemma assoc_set_field_same (k : string) (v : json) fs : assoc k (set_field k v fs) = Some v.
Proof.
  induction fs as [|[k0 v0] r IH]; simpl.
  - now rewrite String.eqb_refl.
  - destruct (String.eqb k k0) eqn:E; simpl.
    + now rewrite String.eqb_refl.
    + now rewrite E.
Qed.

Lemma assoc_set_field_other (k k' : string) (v : json) fs :
  k' <> k -> assoc k' (set_field k v fs) = assoc k' fs.
Proof.
  intros Hne. induction fs as [|[k0 v0] r IH]; simpl.
  - destruct (String.eqb_spec k' k); [congruence|reflexivity].
  - destruct (String.eqb_spec k k0) as [->|Hk]; simpl.
    + destruct (String.eqb_spec k' k0); [congruence|reflexivity].
    + destruct (String.eqb k' k0); [reflexivity|exact IH].
Qed.

Lemma set_field_fresh (k : string) (v : json) fs :
  ~ In k (map fst fs) -> set_field k v fs = fs ++ [(k, v)].
Proof.
  induction fs as [|[k0 v0] r IH]; simpl; intros Hn; [reflexivity|].
  destruct (String.eqb_spec k k0) as [->|Hk]; [tauto|].
  rewrite IH; tauto.
Qed.

Lemma fold_set_field_fresh (F : string * json -> json)
    (g : list (string * json) -> string * json -> list (string * json)) :
  (forall acc cd, g acc cd = set_field (fst cd) (F cd) acc) ->
  forall fs acc, NoDup (map fst fs) -> (forall k, In k (map fst fs) -> ~ In k (map fst acc)) ->
  fold_left g fs acc = acc ++ map (fun cd => (fst cd, F cd)) fs.
Proof.
  intros Hg fs. induction fs as [|cd fs IH]; intros acc Hn Hd; simpl.
  - now rewrite app_nil_r.
  - inversion Hn as [|? ? Hnot Hr]; subst.
    rewrite Hg, set_field_fresh by (apply Hd; simpl; tauto).
    rewrite IH; [now rewrite <- app_assoc|exact Hr|].
    intros k Hk. rewrite map_app, in_app_iff. simpl. intros [H|[H|[]]].
    + apply (Hd k); simpl; tauto.
    + subst. tauto.
Qed.

Lemma assoc_in {A} (k : string) (v : A) l : assoc k l = Some v -> In (k, v) l.
Proof.
  induction l as [|[k0 v0] r IH]; simpl; [discriminate|].
  destruct (String.eqb_spec k k0) as [->|_]; [intros H; injection H; intros ->; now left|].
  intros H; right; exact (IH H).
Qed.

Lemma genOp_ok r a :
  (exists op, Generator.generateOperationFromAnalysis r a = Ok op) <->
  (exists ps, Generator.generateParametersFromAnalysis a = Ok ps).
Proof.
  unfold Generator.generateOperationFromAnalysis.
  destruct (Generator.generateParametersFromAnalysis a) as [ps|m]; simpl.
  - split; intros _; [now exists ps|]. destruct (_ && _); eexists; reflexivity.
  - split; intros [x H]; discriminate.
Qed.

Lemma path_item_app l1 l2 acc :
  Generator.path_item (l1 ++ l2) acc =
  bind (Generator.path_item l1 acc) (fun acc' => Generator.path_item l2 acc').
Proof.
  revert acc. induction l1 as [|[r a] l1 IH]; intros acc; simpl; [reflexivity|].
  destruct (Generator.generateOperationFromAnalysis r a); simpl; [apply IH|reflexivity].
Qed.

Lemma path_item_keep k l acc it :
  Generator.path_item l acc = Ok it ->
  (forall y, In y l -> toLowerCase (Parser.method (fst y)) <> k) ->
  assoc k it = assoc k acc.
Proof.
  revert acc. induction l as [|[r a] l IH]; intros acc H Hk; simpl in H.
  - injection H; intros <-; reflexivity.
  - destruct (Generator.generateOperationFromAnalysis r a) as [op|m]; simpl in H; [|discriminate].
    rewrite (IH _ H) by (intros y Hy; apply Hk; now right).
    apply assoc_set_field_other. intros E. apply (Hk (r, a)); [now left|]. simpl. congruence.
Qed.

Lemma path_item_ok l acc :
  (exists it, Generator.path_item l acc = Ok it) <->
  (forall x, In x l -> exists op, Generator.generateOperationFromAnalysis (fst x) (snd x) = Ok op).
Proof.
  revert acc. induction l as [|[r a] l IH]; intros acc; simpl.
  - split; [tauto|]. intros _. eexists; reflexivity.
  - destruct (Generator.generateOperationFromAnalysis r a) as [op|m] eqn:E; simpl.
    + rewrite IH. split.
      * intros H x [<-|Hx]; [now exists op|exact (H x Hx)].
      * intros H x Hx. exact (H x (or_intror Hx)).
    + split; [intros [it H]; discriminate|].
      intros H. destruct (H (r, a) (or_introl eq_refl)) as [op Hop]. simpl in Hop. congruence.
Qed.

Lemma build_paths_keep g acc ps k :
  Generator.build_paths g acc = Ok ps -> ~ In k (map fst g) -> assoc k ps = assoc k acc.
Proof.
  revert acc. induction g as [|[p prs] rest IH]; intros acc H Hk; simpl in H.
  - injection H; intros <-; reflexivity.
  - destruct (Generator.path_item prs []) as [it|m]; simpl in H; [|discriminate].
    rewrite (IH _ H) by (simpl in Hk; tauto).
    apply assoc_set_field_other. simpl in Hk. intros ->. tauto.
Qed.

Lemma build_paths_lookup g acc ps p prs :
  Generator.build_paths g acc = Ok ps -> NoDup (map fst g) -> In (p, prs) g ->
  exists it, Generator.path_item prs [] = Ok it /\ assoc p ps = Some (JObj it).
Proof.
  revert acc. induction g as [|[p0 prs0] rest IH]; intros acc H Hn Hin; simpl in H; [destruct Hin|].
  inversion Hn as [|? ? Hnot Hr]; subst.
  destruct (Generator.path_item prs0 []) as [it0|m] eqn:E; simpl in H; [|discriminate].
  destruct Hin as [Heq|Hin].
  - injection Heq; intros -> ->. exists it0. split; [exact E|].
    rewrite (build_paths_keep _ _ _ _ H Hnot). apply assoc_set_field_same.
  - exact (IH _ H Hr Hin).
Qed.

Lemma build_paths_ok g acc :
  (exists ps, Generator.build_paths g acc = Ok ps) <->
  (forall grp, In grp g -> exists it, Generator.path_item (snd grp) [] = Ok it).
Proof.
  revert acc. induction g as [|[p prs] rest IH]; intros acc; simpl.
  - split; [tauto|]. intros _. eexists; reflexivity.
  - destruct (Generator.path_item prs []) as [it|m] eqn:E; simpl.
    + rewrite IH. split.
      * intros H grp [<-|Hg]; [now exists it|exact (H grp Hg)].
      * intros H grp Hg. exact (H grp (or_intror Hg)).
    + split; [intros [ps H]; discriminate|].
      intros H. destruct (H (p, prs) (or_introl eq_refl)) as [it Hit]. simpl in Hit. congruence.
Qed.

Lemma group_add_nodup k x g : NoDup (map fst g) -> NoDup (map fst (Generator.group_add k x g)).
Proof.
  induction g as [|[k0 xs] r IH]; simpl; intros Hn.
  - constructor; [intros []|constructor].
  - inversion Hn as [|? ? Hnot Hr]; subst.
    destruct (String.eqb_spec k k0) as [->|Hk]; simpl; [exact Hn|].
    constructor; [|exact (IH Hr)].
    rewrite group_add_keys. intros [E|E]; [congruence|tauto].
Qed.

Lemma group_add_assoc_some k x g p l :
  assoc p g = Some l -> assoc p (Generator.group_add k x g) =
  Some (if String.eqb p k then l ++ [x] else l).
Proof.
  induction g as [|[k0 xs] r IH]; simpl; [discriminate|].
  destruct (String.eqb_spec p k0) as [->|Hp].
  - intros H; injection H; intros <-.
    destruct (String.eqb_spec k k0) as [->|Hk]; simpl.
    + now rewrite !String.eqb_refl.
    + rewrite String.eqb_refl. destruct (String.eqb_spec k0 k); [congruence|reflexivity].
  - intros H. destruct (String.eqb_spec k k0) as [->|Hk]; simpl.
    + destruct (String.eqb_spec p k0); [congruence|]. rewrite H.
      destruct (String.eqb_spec p k0); [congruence|reflexivity].
    + destruct (String.eqb_spec p k0); [congruence|]. exact (IH H).
Qed.

Lemma group_add_assoc_none k x g p :
  assoc p g = None -> assoc p (Generator.group_add k x g) =
  if String.eqb p k then Some [x] else None.
Proof.
  induction g as [|[k0 xs] r IH]; simpl.
  - intros _. destruct (String.eqb p k); reflexivity.
  - destruct (String.eqb_spec p k0) as [->|Hp]; [discriminate|]. intros H.
    destruct (String.eqb_spec k k0) as [->|Hk]; simpl.
    + destruct (String.eqb_spec p k0); [congruence|]. rewrite H.
      destruct (String.eqb_spec p k0); [congruence|reflexivity].
    + destruct (String.eqb_spec p k0); [congruence|]. exact (IH H).
Qed.

Lemma group_fold_some rs g p l :
  assoc p g = Some l ->
  assoc p (fold_left (fun g res => Generator.group_add (Parser.path (fst res)) res g) rs g) =
  Some (l ++ filter (fun y => String.eqb (Parser.path (fst y)) p) rs).
Proof.
  revert g l. induction rs as [|x rs IH]; intros g l H; simpl.
  - now rewrite app_nil_r.
  - rewrite (IH _ _ (group_add_assoc_some _ x _ _ _ H)).
    destruct (String.eqb_spec p (Parser.path (fst x))) as [->|Hp];
      rewrite ?String.eqb_refl; [now rewrite <- app_assoc|].
    destruct (String.eqb_spec (Parser.path (fst x)) p); [congruence|reflexivity].
Qed.

Lemma group_fold_none rs g p :
  assoc p g = None -> filter (fun y => String.eqb (Parser.path (fst y)) p) rs <> [] ->
  assoc p (fold_left (fun g res => Generator.group_add (Parser.path (fst res)) res g) rs g) =
  Some (filter (fun y => String.eqb (Parser.path (fst y)) p) rs).
Proof.
  revert g. induction rs as [|x rs IH]; intros g H Hne; simpl in *; [congruence|].
  pose proof (group_add_assoc_none (Parser.path (fst x)) x g p H) as Ha.
  destruct (String.eqb_spec (Parser.path (fst x)) p) as [E|E].
  - rewrite E, String.eqb_refl in Ha. rewrite E. exact (group_fold_some rs _ p [x] Ha).
  - destruct (String.eqb_spec p (Parser.path (fst x))); [congruence|].
    exact (IH _ Ha Hne).
Qed.

Lemma group_results_nodup rs : NoDup (map fst (Generator.group_results rs)).
Proof.
  unfold Generator.group_results.
  assert (H : forall g, NoDup (map fst g) ->
    NoDup (map fst (fold_left (fun g res => Generator.group_add (Parser.path (fst res)) res g) rs g))).
  { induction rs as [|x rs IH]; intros g Hg; simpl; [exact Hg|].
    apply IH, group_add_nodup, Hg. }
  apply H. constructor.
Qed.

Lemma group_results_lookup rs x :
  In x rs ->
  In (Parser.path (fst x), filter (fun y => String.eqb (Parser.path (fst y)) (Parser.path (fst x))) rs)
     (Generator.group_results rs).
Proof.
  intros Hx. apply assoc_in. unfold Generator.group_results.
  apply group_fold_none; [reflexivity|].
  intros E. assert (Hf : In x (filter (fun y => String.eqb (Parser.path (fst y)) (Parser.path (fst x))) rs)).
  { apply filter_In. split; [exact Hx|apply String.eqb_refl]. }
  rewrite E in Hf. destruct Hf.
Qed.

Lemma group_add_elems k x g grp y :
  In grp (Generator.group_add k x g) -> In y (snd grp) ->
  y = x \/ exists grp', In grp' g /\ In y (snd grp').
Proof.
  induction g as [|[k0 xs] r IH]; simpl.
  - intros [<-|[]] [<-|[]]. now left.
  - destruct (String.eqb k k0); simpl.
    + intros [<-|Hg] Hy.
      * simpl in Hy. apply in_app_iff in Hy. destruct Hy as [Hy|[<-|[]]]; [|now left].
        right. exists (k0, xs). simpl; tauto.
      * right. exists grp. tauto.
    + intros [<-|Hg] Hy.
      * right. exists (k0, xs). tauto.
      * destruct (IH Hg Hy) as [E|[grp' [H1 H2]]]; [now left|right; exists grp'; tauto].
Qed.

Lemma group_results_elems rs grp y :
  In grp (Generator.group_results rs) -> In y (snd grp) -> In y rs.
Proof.
  unfold Generator.group_results.
  assert (H : forall g, In grp (fold_left (fun g res => Generator.group_add (Parser.path (fst res)) res g) rs g) ->
    In y (snd grp) -> In y rs \/ exists grp', In grp' g /\ In y (snd grp')).
  { induction rs as [|x rs IH]; intros g Hg Hy; simpl in *.
    - right. exists grp. tauto.
    - destruct (IH _ Hg Hy) as [H|[grp' [H1 H2]]]; [tauto|].
      destruct (group_add_elems _ _ _ _ _ H1 H2) as [E|E]; [left; now left|right; exact E]. }
  intros Hg Hy. destruct (H [] Hg Hy) as [E|[grp' [[] _]]]. exact E.
Qed.

Lemma no_inherited_key (rs : list Generator.result_pair) :
  existsb (fun res => Generator.inherited_key (Parser.path (fst res))) rs = false <->
  (forall x, In x rs -> Generator.inherited_key (Parser.path (fst x)) = false).
Proof.
  split.
  - intros Ex x Hx. apply not_true_is_false. intros E.
    assert (existsb (fun res => Generator.inherited_key (Parser.path (fst res))) rs = true)
      by (apply existsb_exists; exists x; split; assumption).
    congruence.
  - intros Hk. apply not_true_is_false. intros Ex. apply existsb_exists in Ex.
    destruct Ex as [x [Hx Hi]]. rewrite (Hk x Hx) in Hi. discriminate.
Qed.

Lemma generateSpec_ok_iff o rs :
  (exists spec, Generator.generateSpec o rs = Ok spec) <->
  (forall x, In x rs -> Generator.inherited_key (Parser.path (fst x)) = false) /\
  (forall x, In x rs -> exists op, Generator.generateOperationFromAnalysis (fst x) (snd x) = Ok op).
Proof.
  rewrite generateSpec_eq.
  transitivity ((forall x, In x rs -> Generator.inherited_key (Parser.path (fst x)) = false) /\
                exists ps, Generator.build_paths (Generator.group_results rs) [] = Ok ps).
  { destruct (existsb (fun res => Generator.inherited_key (Parser.path (fst res))) rs) eqn:Ex.
    - split; [intros [z H]; discriminate|]. intros [Hk _].
      apply (proj2 (no_inherited_key rs)) in Hk. congruence.
    - pose proof (proj1 (no_inherited_key rs) Ex) as Hk.
      destruct (Generator.build_paths _ _) as [ps|m]; simpl.
      + split; intros _; [split; [exact Hk|eexists; reflexivity]|eexists; reflexivity].
      + split; [intros [z H]; discriminate|intros [_ [z H]]; discriminate]. }
  apply and_iff_compat_l.
  rewrite build_paths_ok. split.
  - intros H x Hx. pose proof (group_results_lookup rs x Hx) as Hg.
    destruct (H _ Hg) as [it Hit]. simpl in Hit.
    apply (proj1 (path_item_ok _ _) (ex_intro _ it Hit)).
    apply filter_In. split; [exact Hx|apply String.eqb_refl].
  - intros H grp Hg. apply (path_item_ok _ []). intros x Hx.
    exact (H x (group_results_elems rs grp x Hg Hx)).
Qed.

Lemma generateSpec_paths o rs spec :
  Generator.generateSpec o rs = Ok spec ->
  exists ps, Generator.build_paths (Generator.group_results rs) [] = Ok ps /\
             prop spec "paths" = JObj ps.
Proof.
  rewrite generateSpec_eq. destruct (existsb (fun res => Generator.inherited_key (Parser.path (fst res))) rs); [discriminate|].
  destruct (Generator.build_paths _ _) as [ps|m]; simpl; [|discriminate].
  intros H; injection H; intros <-. exists ps. split; reflexivity.
Qed.

Lemma find_name_true n xs :
  AIAnalyzer.find_name n xs = Ok true -> exists x, In x xs /\ AIAnalyzer.name_is (prop x "name") n = true.
Proof.
  induction xs as [|x xs IH]; simpl; [discriminate|].
  intros H. destruct x; try discriminate;
    (destruct (AIAnalyzer.name_is _ n) eqn:E;
     [eexists; split; [left; reflexivity|exact E]
     |destruct (IH H) as [y [Hy Hn]]; exists y; split; [now right|exact Hn]]).
Qed.

Lemma add_missing_spec rps xs ys :
  AIAnalyzer.add_missing rps xs = Ok ys ->
  exists zs, ys = xs ++ zs /\
  forall p, In p rps -> exists x, In x ys /\ AIAnalyzer.name_is (prop x "name") (Parser.p_name p) = true.
Proof.
  revert xs. induction rps as [|p rps IH]; intros xs H; simpl in H.
  - injection H; intros <-. exists []. split; [now rewrite app_nil_r|intros p []].
  - destruct (AIAnalyzer.find_name (Parser.p_name p) xs) as [found|m] eqn:F; simpl in H; [|discriminate].
    destruct (IH _ H) as [zs [Hys Hall]].
    destruct found.
    + exists zs. split; [exact Hys|]. intros q [<-|Hq]; [|exact (Hall q Hq)].
      destruct (find_name_true _ _ F) as [x [Hx Hn]]. exists x. split; [|exact Hn].
      rewrite Hys. apply in_app_iff. now left.
    + rewrite <- app_assoc in Hys. simpl in Hys. eexists. split; [exact Hys|].
      intros q [<-|Hq]; [|exact (Hall q Hq)].
      eexists. split; [rewrite Hys; apply in_app_iff; right; left; reflexivity|].
      simpl. apply String.eqb_refl.
Qed.

End GeneratorLookup.

Section ParameterConversion.

Lemma map_result_parameter_ok xs :
  (exists ys, Generator.map_result Generator.parameter_of xs = Ok ys) <-> (~ In JNull xs /\ ~ In JUndef xs).
Proof.
  induction xs as [|x xs IH]; simpl.
  - split; [tauto|]. intros _. eexists; reflexivity.
  - destruct x; simpl;
      try (split; [intros [ys H]; discriminate|intros [H1 H2]; tauto]);
      (destruct (Generator.map_result Generator.parameter_of xs) as [ys|m]; simpl;
       [split; [intros _; split; intros [H|H]; [discriminate|apply IH in H; eauto|discriminate|];
                apply (proj2 (proj1 IH (ex_intro _ ys eq_refl))); exact H
               |intros _; eexists; reflexivity]
       |split; [intros [z H]; discriminate|intros [H1 H2]; destruct (proj2 IH (conj (fun h => H1 (or_intror h)) (fun h => H2 (or_intror h)))) as [z Hz]; discriminate]]).
Qed.

Lemma generateParameters_ok a :
  (exists ps, Generator.generateParametersFromAnalysis a = Ok ps) <->
  (truthy (prop a "parameters") = false \/
   exists xs, prop a "parameters" = JArr xs /\ ~ In JNull xs /\ ~ In JUndef xs).
Proof.
  unfold Generator.generateParametersFromAnalysis.
  destruct (truthy (prop a "parameters")) eqn:T.
  - destruct (prop a "parameters"); try discriminate;
      try (split; [intros [ps H]; discriminate|intros [H|[xs [H _]]]; discriminate]).
    rewrite map_result_parameter_ok. split.
    + intros H. right. eexists; split; [reflexivity|exact H].
    + intros [H|[ys [H1 H2]]]; [discriminate|]. injection H1; intros <-; exact H2.
  - split; [intros _; now left|intros _; eexists; reflexivity].
Qed.

End ParameterConversion.

Section ResponseShapes.

Lemma responses_of_statusCodes a fs :
  prop a "statusCodes" = JObj fs -> NoDup (map fst fs) ->
  Generator.generateResponsesFromAnalysis a =
  JObj (map (fun cd => (fst cd, JObj (app [("description", snd cd)]
          (if startsWith (fst cd) "2" && truthy (prop a "responseSchema") then
             [("content", JObj [("application/json",
                JObj [("schema", prop a "responseSchema");
                      ("example", or (Generator.example_response a) (JObj []))])])]
           else [])))) fs).
Proof.
  intros H Hn. unfold Generator.generateResponsesFromAnalysis. cbv zeta. rewrite H. cbn [truthy entries].
  f_equal.
  apply (fold_set_field_fresh (fun cd => JObj (app [("description", snd cd)]
          (if startsWith (fst cd) "2" && truthy (prop a "responseSchema") then
             [("content", JObj [("application/json",
                JObj [("schema", prop a "responseSchema");
                      ("example", or (Generator.example_response a) (JObj []))])])]
           else [])))); [intros; reflexivity|exact Hn|intros k _ []].
Qed.

Lemma parameters_of_params (ps : list Parser.param) :
  exists ys, Generator.map_result Generator.parameter_of (map AIAnalyzer.param_to_json ps) = Ok ys.
Proof.
  apply map_result_parameter_ok. split; intros H; apply in_map_iff in H;
    destruct H as [p [Hp _]]; discriminate.
Qed.

Lemma template_parameters (ns : list string) :
  Generator.map_result Generator.parameter_of
    (map AIAnalyzer.param_to_json
       (map (fun name => {| Parser.p_name := name; Parser.p_in := "path"; Parser.p_required := true;
                            Parser.p_type := "string" |}) ns)) =
  Ok (map (fun n => JObj [("name", JStr n); ("in", JStr "path"); ("required", JBool true);
                          ("schema", JObj [("type", JStr "string")]); ("description", JUndef)]) ns).
Proof.
  induction ns as [|n ns IH]; simpl; [reflexivity|]. rewrite IH. reflexivity.
Qed.

Lemma template_operation (r : Parser.route) :
  Parser.parameters r = Parser.extractParameters (Parser.path r) ->
  Generator.generateOperationFromAnalysis r (Cli.templateAnalysis r) =
  Ok (JObj [("summary", JStr (Parser.method r ++ " " ++ Parser.path r));
            ("description", JStr "API endpoint"); ("tags", JArr [JStr "API"]);
            ("parameters", JArr (map (fun n => JObj [("name", JStr n); ("in", JStr "path");
                                                    ("required", JBool true);
                                                    ("schema", JObj [("type", JStr "string")]);
                                                    ("description", JUndef)])
                                  (Parser.colon_matches Parser.MOut (Parser.path r))));
            ("responses", JObj [("200", JObj [("description", JStr "Success")])])]).
Proof.
  intros Hp. unfold Generator.generateOperationFromAnalysis, Generator.generateParametersFromAnalysis.
  cbn -[Generator.map_result Generator.generateResponsesFromAnalysis AIAnalyzer.is_body_method].
  rewrite Hp. unfold Parser.extractParameters. rewrite template_parameters. cbn -[AIAnalyzer.is_body_method].
  rewrite andb_false_r. reflexivity.
Qed.

End ResponseShapes.

(** Extra: [generateSpec] succeeds exactly when, for every result (whose
    analysis is an object, as every producer builds it), the route's path is
    not a member of [Object.prototype] (such as [constructor] or [toString])
    and the analysis' [parameters] is falsy, or an array none of whose
    elements is [null] or [undefined]; a single other result makes the whole
    generation throw. *)
Theorem generateSpec_ok_iff_parameters (o : Generator.options) (rs : list Generator.result_pair) :
  (forall x, In x rs -> exists fs, snd x = JObj fs) ->
  ((exists spec, Generator.generateSpec o rs = Ok spec) <->
   (forall x, In x rs ->
      Generator.inherited_key (Parser.path (fst x)) = false /\
      (truthy (prop (snd x) "parameters") = false \/
       exists xs, prop (snd x) "parameters" = JArr xs /\ ~ In JNull xs /\ ~ In JUndef xs))).
Proof.
  intros _. rewrite generateSpec_ok_iff. split.
  - intros [Hk H] x Hx. split; [exact (Hk x Hx)|].
    apply generateParameters_ok, (genOp_ok (fst x)), H, Hx.
  - intros H. split; intros x Hx; [exact (proj1 (H x Hx))|].
    apply genOp_ok, generateParameters_ok, (proj2 (H x Hx)).
Qed.

Lemma generateSpec_ok_iff_parameters_witness :
  (exists spec, Generator.generateSpec Generator.default_options
     [(Inputs.users_get_route, AIAnalyzer.generateFallbackAnalysis Inputs.users_get_route)] = Ok spec) <->
  (forall x, In x [(Inputs.users_get_route, AIAnalyzer.generateFallbackAnalysis Inputs.users_get_route)] ->
      Generator.inherited_key (Parser.path (fst x)) = false /\
      (truthy (prop (snd x) "parameters") = false \/
       exists xs, prop (snd x) "parameters" = JArr xs /\ ~ In JNull xs /\ ~ In JUndef xs)).
Proof.
  apply generateSpec_ok_iff_parameters.
  intros x [<-|[]]. eexists; reflexivity.
Defined.

(** Extra: a route whose path is a member of [Object.prototype] (such as
    [constructor], [toString] or [__proto__]) makes [generateSpec] throw
    [grouped[path].push is not a function], whatever the other results and
    the analyses are. *)
Theorem generateSpec_inherited_path_throws (o : Generator.options) (rs : list Generator.result_pair)
    (x : Generator.result_pair) :
  In x rs -> Generator.inherited_key (Parser.path (fst x)) = true ->
  Generator.generateSpec o rs = Throw "grouped[path].push is not a function".
Proof.
  intros Hx Hk. rewrite generateSpec_eq.
  replace (existsb (fun res => Generator.inherited_key (Parser.path (fst res))) rs) with true;
    [reflexivity|].
  symmetry. apply existsb_exists. exists x. split; assumption.
Qed.

Lemma generateSpec_inherited_path_throws_witness :
  Generator.generateSpec Generator.default_options
    [(Inputs.users_get_route, AIAnalyzer.generateFallbackAnalysis Inputs.users_get_route);
     (Inputs.simple_route "GET" "toString",
      AIAnalyzer.generateFallbackAnalysis (Inputs.simple_route "GET" "toString"))] =
  Throw "grouped[path].push is not a function".
Proof.
  apply (generateSpec_inherited_path_throws _ _
           (Inputs.simple_route "GET" "toString",
            AIAnalyzer.generateFallbackAnalysis (Inputs.simple_route "GET" "toString")));
    [right; left; reflexivity|reflexivity].
Defined.

(** Extra: in a generated specification, [paths[p][m]] (with [m] the
    lower-cased method) is the operation built from the last result with path
    [p] and that method: a later result for the same path and method
    overwrites an earlier one. *)
Theorem generateSpec_last_operation_wins (o : Generator.options) (rs : list Generator.result_pair)
    spec pre x post :
  Generator.generateSpec o rs = Ok spec -> rs = pre ++ x :: post ->
  (forall y, In y post -> Parser.path (fst y) = Parser.path (fst x) ->
     toLowerCase (Parser.method (fst y)) <> toLowerCase (Parser.method (fst x))) ->
  exists op, Generator.generateOperationFromAnalysis (fst x) (snd x) = Ok op /\
    at_path spec ["paths"; Parser.path (fst x); toLowerCase (Parser.method (fst x))]%string = op.
Proof.
  intros H Hrs Hpost.
  destruct (generateSpec_paths _ _ _ H) as [ps [Hb Hp]].
  assert (Hin : In x rs) by (rewrite Hrs; apply in_app_iff; right; now left).
  destruct (build_paths_lookup _ _ _ _ _ Hb (group_results_nodup rs)
              (group_results_lookup rs x Hin)) as [it [Hit Ha]].
  rewrite Hrs, filter_app in Hit. simpl in Hit. rewrite String.eqb_refl in Hit.
  rewrite path_item_app in Hit.
  destruct (Generator.path_item _ []) as [acc|m]; simpl in Hit; [|discriminate].
  destruct x as [r a]. simpl in Hit.
  destruct (Generator.generateOperationFromAnalysis r a) as [op|m] eqn:E; simpl in Hit; [|discriminate].
  exists op. split; [exact E|].
  simpl in Ha. unfold at_path. simpl. rewrite Hp. simpl. rewrite Ha. simpl.
  rewrite (path_item_keep _ _ _ _ Hit).
  - rewrite assoc_set_field_same. reflexivity.
  - intros y Hy. apply filter_In in Hy. destruct Hy as [Hy Hq].
    apply String.eqb_eq in Hq. exact (Hpost y Hy Hq).
Qed.

Lemma generateSpec_last_operation_wins_witness :
  exists spec op,
    Generator.generateSpec Generator.default_options
      [(Inputs.simple_route "GET" "/users", Inputs.service_analysis "First" (JObj []));
       (Inputs.simple_route "GET" "/users", Inputs.service_analysis "Second" (JObj []))] = Ok spec /\
    Generator.generateOperationFromAnalysis (Inputs.simple_route "GET" "/users")
      (Inputs.service_analysis "Second" (JObj [])) = Ok op /\
    at_path spec ["paths"; "/users"; "get"]%string = op.
Proof.
  eexists. assert (Hs : Generator.generateSpec Generator.default_options
      [(Inputs.simple_route "GET" "/users", Inputs.service_analysis "First" (JObj []));
       (Inputs.simple_route "GET" "/users", Inputs.service_analysis "Second" (JObj []))] = Ok _)
    by reflexivity.
  destruct (generateSpec_last_operation_wins _ _ _
              [(Inputs.simple_route "GET" "/users", Inputs.service_analysis "First" (JObj []))]
              (Inputs.simple_route "GET" "/users", Inputs.service_analysis "Second" (JObj [])) []
              Hs eq_refl (fun y Hy => match Hy with end)) as [op [H1 H2]].
  exists op. split; [exact Hs|split; assumption].
Defined.



Section FallbackOperation.

Import Parser AIAnalyzer.

(** Extra: the operation built from a fallback analysis always exists, and
    its [responses] has the six keys [200], [201], [204], [400], [404] and
    [500] for every route; the [description] of [200] and [204] is
    [undefined] exactly when the method is not [DELETE] (resp. is [DELETE]),
    of [201] exactly when the method is not [POST], and of [404] exactly when
    the path has no [:]. *)
Theorem fallback_operation_responses (r : route) :
  exists op, Generator.generateOperationFromAnalysis r (generateFallbackAnalysis r) = Ok op /\
  map fst (entries (prop op "responses")) = ["200"; "201"; "204"; "400"; "404"; "500"]%string /\
  (at_path op ["responses"; "200"; "description"]%string = JUndef <-> method r = "DELETE"%string) /\
  (at_path op ["responses"; "201"; "description"]%string = JUndef <-> method r <> "POST"%string) /\
  (at_path op ["responses"; "204"; "description"]%string = JUndef <-> method r <> "DELETE"%string) /\
  (at_path op ["responses"; "404"; "description"]%string = JUndef <-> includes (path r) ":" = false).
Proof.
  destruct (parameters_of_params (parameters r)) as [ys Hys].
  assert (Hp : prop (generateFallbackAnalysis r) "parameters" = JArr (map param_to_json (parameters r)))
    by reflexivity.
  unfold Generator.generateOperationFromAnalysis, Generator.generateParametersFromAnalysis.
  rewrite (responses_of_statusCodes (generateFallbackAnalysis r) _ eq_refl)
    by (repeat (apply NoDup_cons; [simpl; intuition discriminate|]); apply NoDup_nil).
  rewrite Hp. cbn [truthy]. rewrite Hys. cbn [bind].
  destruct (is_body_method (method r) && _);
    (eexists; split; [reflexivity|]); unfold at_path; cbn;
    (split; [reflexivity|]);
    destruct (String.eqb_spec (method r) "DELETE"), (String.eqb_spec (method r) "POST"),
             (includes (path r) ":");
    cbn; repeat split; intros; try congruence; try discriminate; try tauto.
Qed.

End FallbackOperation.

Section OperationSources.

Import Parser.

Lemma set_field_dom k k' v acc :
  assoc k acc <> None -> assoc k (set_field k' v acc) <> None.
Proof.
  intros H. destruct (String.eqb_spec k k') as [->|Hne].
  - rewrite assoc_set_field_same. discriminate.
  - rewrite assoc_set_field_other by exact Hne. exact H.
Qed.

Lemma path_item_dom l acc it k :
  Generator.path_item l acc = Ok it -> assoc k acc <> None -> assoc k it <> None.
Proof.
  revert acc. induction l as [|[r a] l IH]; intros acc H Hk; simpl in H.
  - injection H; intros <-; exact Hk.
  - destruct (Generator.generateOperationFromAnalysis r a) as [op|m]; simpl in H; [|discriminate].
    exact (IH _ H (set_field_dom _ _ _ _ Hk)).
Qed.

Lemma path_item_defined l acc it y :
  Generator.path_item l acc = Ok it -> In y l ->
  exists v, assoc (toLowerCase (method (fst y))) it = Some v.
Proof.
  revert acc. induction l as [|[r a] l IH]; intros acc H Hy; simpl in H; [destruct Hy|].
  destruct (Generator.generateOperationFromAnalysis r a) as [op|m]; simpl in H; [|discriminate].
  destruct Hy as [<-|Hy]; [|exact (IH _ H Hy)].
  simpl. destruct (assoc (toLowerCase (method r)) it) as [v|] eqn:E; [now exists v|].
  exfalso. refine (path_item_dom _ _ _ _ H _ E). rewrite assoc_set_field_same. discriminate.
Qed.

Lemma path_item_source l acc it k v :
  Generator.path_item l acc = Ok it -> assoc k it = Some v ->
  assoc k acc = Some v \/
  exists y, In y l /\ toLowerCase (method (fst y)) = k /\
            Generator.generateOperationFromAnalysis (fst y) (snd y) = Ok v.
Proof.
  revert acc. induction l as [|[r a] l IH]; intros acc H Hv; simpl in H.
  - injection H; intros <-. now left.
  - destruct (Generator.generateOperationFromAnalysis r a) as [op|m] eqn:E; simpl in H; [|discriminate].
    destruct (IH _ H Hv) as [Ha|[y [Hy Hr]]]; [|right; exists y; split; [now right|exact Hr]].
    destruct (String.eqb_spec k (toLowerCase (method r))) as [->|Hne].
    + rewrite assoc_set_field_same in Ha. injection Ha; intros <-.
      right. exists (r, a). split; [now left|split; [reflexivity|exact E]].
    + rewrite assoc_set_field_other in Ha by exact Hne. now left.
Qed.

Lemma spec_operation_source o rs spec x :
  Generator.generateSpec o rs = Ok spec -> In x rs ->
  exists y, In y rs /\ path (fst y) = path (fst x) /\
    toLowerCase (method (fst y)) = toLowerCase (method (fst x)) /\
    Generator.generateOperationFromAnalysis (fst y) (snd y) =
      Ok (at_path spec ["paths"; path (fst x); toLowerCase (method (fst x))]%string).
Proof.
  intros H Hx.
  destruct (generateSpec_paths _ _ _ H) as [ps [Hb Hp]].
  destruct (build_paths_lookup _ _ _ _ _ Hb (group_results_nodup rs)
              (group_results_lookup rs x Hx)) as [it [Hit Ha]].
  assert (Hxf : In x (filter (fun y => String.eqb (path (fst y)) (path (fst x))) rs)).
  { apply filter_In. split; [exact Hx|apply String.eqb_refl]. }
  destruct (path_item_defined _ _ _ _ Hit Hxf) as [v Hv].
  destruct (path_item_source _ _ _ _ _ Hit Hv) as [Hn|[y [Hy [Hm Hop]]]]; [discriminate|].
  apply filter_In in Hy. destruct Hy as [Hy Hq]. apply String.eqb_eq in Hq.
  exists y. split; [exact Hy|split; [exact Hq|split; [exact Hm|]]].
  unfold at_path. simpl. rewrite Hp. simpl. rewrite Ha. simpl. rewrite Hv. exact Hop.
Qed.

Lemma template_no_schemas (rs : list route) st :
  fold_left Generator.reusable_step (map (fun r => (r, Cli.templateAnalysis r)) rs) st = st.
Proof.
  revert st. induction rs as [|r rs IH]; intros st; simpl; [reflexivity|]. apply IH.
Qed.

End OperationSources.

(** Extra: every result [x] given to [generateSpec] has an operation at
    [paths[x.route.path][x.route.method.toLowerCase()]], and that operation is
    the one built from some result with the same path and the same lower-cased
    method. *)
Theorem generateSpec_operation_source o rs spec x :
  Generator.generateSpec o rs = Ok spec -> In x rs ->
  exists y, In y rs /\ Parser.path (fst y) = Parser.path (fst x) /\
    toLowerCase (Parser.method (fst y)) = toLowerCase (Parser.method (fst x)) /\
    Generator.generateOperationFromAnalysis (fst y) (snd y) =
      Ok (at_path spec ["paths"; Parser.path (fst x); toLowerCase (Parser.method (fst x))]%string).
Proof. exact (spec_operation_source o rs spec x). Qed.

Lemma generateSpec_operation_source_witness :
  exists spec, Generator.generateSpec Generator.default_options
    [(Inputs.users_get_route, AIAnalyzer.generateFallbackAnalysis Inputs.users_get_route)] = Ok spec /\
  exists y, In y [(Inputs.users_get_route, AIAnalyzer.generateFallbackAnalysis Inputs.users_get_route)] /\
    Parser.path (fst y) = Parser.path Inputs.users_get_route /\
    toLowerCase (Parser.method (fst y)) = toLowerCase (Parser.method Inputs.users_get_route) /\
    Generator.generateOperationFromAnalysis (fst y) (snd y) =
      Ok (at_path spec ["paths"; Parser.path Inputs.users_get_route;
                        toLowerCase (Parser.method Inputs.users_get_route)]%string).
Proof.
  eexists. assert (Hs : Generator.generateSpec Generator.default_options
    [(Inputs.users_get_route, AIAnalyzer.generateFallbackAnalysis Inputs.users_get_route)] = Ok _)
    by reflexivity.
  split; [exact Hs|].
  exact (generateSpec_operation_source _ _ _
           (Inputs.users_get_route, AIAnalyzer.generateFallbackAnalysis Inputs.users_get_route)
           Hs (or_introl eq_refl)).
Defined.

(** Extra: without AI (every route analysed by the CLI's template), when the
    routes' parameters are those [extractParameters] finds in their paths and
    no path is a member of [Object.prototype], [generateSpec] does not throw, [components.schemas] is empty, and the
    operation at [paths[p][m]] of every route has the template's summary
    ([METHOD path] of a route with that path and lower-cased method), the
    description [API endpoint], the tag [API], one required string path
    parameter per [:name] of the path, and the single response [200
    Success]. *)
Theorem template_mode_spec (o : Generator.options) (rs : list Parser.route) :
  (forall r, In r rs -> Parser.parameters r = Parser.extractParameters (Parser.path r)) ->
  (forall r, In r rs -> Generator.inherited_key (Parser.path r) = false) ->
  exists spec,
    Generator.generateSpec o (map (fun r => (r, Cli.templateAnalysis r)) rs) = Ok spec /\
    Generator.spec_schemas spec = [] /\
    forall r, In r rs -> exists r', In r' rs /\ Parser.path r' = Parser.path r /\
      toLowerCase (Parser.method r') = toLowerCase (Parser.method r) /\
      at_path spec ["paths"; Parser.path r; toLowerCase (Parser.method r)]%string =
      JObj [("summary", JStr (Parser.method r' ++ " " ++ Parser.path r));
            ("description", JStr "API endpoint"); ("tags", JArr [JStr "API"]);
            ("parameters", JArr (map (fun n => JObj [("name", JStr n); ("in", JStr "path");
                                                    ("required", JBool true);
                                                    ("schema", JObj [("type", JStr "string")]);
                                                    ("description", JUndef)])
                                  (Parser.colon_matches Parser.MOut (Parser.path r))));
            ("responses", JObj [("200", JObj [("description", JStr "Success")])])].
Proof.
  intros Hrs Hk.
  destruct (proj2 (generateSpec_ok_iff o (map (fun r => (r, Cli.templateAnalysis r)) rs))) as [spec Hs].
  { split; intros x Hx;
      [apply in_map_iff in Hx; destruct Hx as [r [<- Hr]]; exact (Hk r Hr)|].
     apply in_map_iff in Hx. destruct Hx as [r [<- Hr]].
    cbn [fst snd]. rewrite (template_operation r (Hrs r Hr)). eexists; reflexivity. }
  exists spec. split; [exact Hs|split].
  - rewrite (generateSpec_schemas _ _ _ Hs). unfold Generator.extractReusableSchemas.
    rewrite template_no_schemas. reflexivity.
  - intros r Hr.
    destruct (spec_operation_source _ _ _ (r, Cli.templateAnalysis r) Hs
                (in_map (fun r => (r, Cli.templateAnalysis r)) rs r Hr)) as [y [Hy [Hp [Hm Hop]]]].
    apply in_map_iff in Hy. destruct Hy as [r' [<- Hr']]. cbn [fst snd] in Hp, Hm, Hop.
    exists r'. split; [exact Hr'|split; [exact Hp|split; [exact Hm|]]].
    rewrite (template_operation r' (Hrs r' Hr')), Hp in Hop. congruence.
Qed.

Lemma template_mode_spec_witness :
  (forall r, In r [Inputs.users_get_route; Inputs.delete_user_route] ->
     Parser.parameters r = Parser.extractParameters (Parser.path r)) /\
  (forall r, In r [Inputs.users_get_route; Inputs.delete_user_route] ->
     Generator.inherited_key (Parser.path r) = false) /\
  exists spec,
    Generator.generateSpec Generator.default_options
      (map (fun r => (r, Cli.templateAnalysis r)) [Inputs.users_get_route; Inputs.delete_user_route]) = Ok spec /\
    Generator.spec_schemas spec = [] /\
    forall r, In r [Inputs.users_get_route; Inputs.delete_user_route] ->
      exists r', In r' [Inputs.users_get_route; Inputs.delete_user_route] /\ Parser.path r' = Parser.path r /\
      toLowerCase (Parser.method r') = toLowerCase (Parser.method r) /\
      at_path spec ["paths"; Parser.path r; toLowerCase (Parser.method r)]%string =
      JObj [("summary", JStr (Parser.method r' ++ " " ++ Parser.path r));
            ("description", JStr "API endpoint"); ("tags", JArr [JStr "API"]);
            ("parameters", JArr (map (fun n => JObj [("name", JStr n); ("in", JStr "path");
                                                    ("required", JBool true);
                                                    ("schema", JObj [("type", JStr "string")]);
                                                    ("description", JUndef)])
                                  (Parser.colon_matches Parser.MOut (Parser.path r))));
            ("responses", JObj [("200", JObj [("description", JStr "Success")])])].
Proof.
  assert (H : forall r, In r [Inputs.users_get_route; Inputs.delete_user_route] ->
     Parser.parameters r = Parser.extractParameters (Parser.path r)).
  { intros r [<-|[<-|[]]]; reflexivity. }
  assert (Hk : forall r, In r [Inputs.users_get_route; Inputs.delete_user_route] ->
     Generator.inherited_key (Parser.path r) = false).
  { intros r [<-|[<-|[]]]; reflexivity. }
  split; [exact H|split; [exact Hk|]]. exact (template_mode_spec _ _ H Hk).
Defined.

Section Validation.

Import Parser AIAnalyzer.

Lemma validate_parameters a r e :
  validateAndEnhanceAnalysis a r = Ok e ->
  exists ps, addPathParameters (parameters r) (or (prop a "parameters") (JArr [])) = Ok ps /\
             prop e "parameters" = ps.
Proof.
  unfold validateAndEnhanceAnalysis.
  destruct (get a "summary"); simpl; [|discriminate].
  destruct (addPathParameters _ _) as [ps|m]; simpl; [|discriminate].
  intros H. injection H; intros <-. exists ps. split; reflexivity.
Qed.

End Validation.

(** Extra: when the route has path parameters, a validated analysis'
    [parameters] is the array the analysis gave (or [[]]) extended at its end,
    and it names every path parameter of the route (a missing one is
    appended); a [parameters] value that is truthy but not an array makes the
    validation throw. *)
Theorem validate_lists_path_parameters (a : json) (r : Parser.route) (e : json) :
  AIAnalyzer.validateAndEnhanceAnalysis a r = Ok e -> Parser.parameters r <> [] ->
  exists xs zs, or (prop a "parameters") (JArr []) = JArr xs /\
    prop e "parameters" = JArr (xs ++ zs) /\
    forall p, In p (Parser.parameters r) ->
      exists x, In x (xs ++ zs) /\ AIAnalyzer.name_is (prop x "name") (Parser.p_name p) = true.
Proof.
  intros H Hne. destruct (validate_parameters _ _ _ H) as [ps [Ha Hp]].
  unfold AIAnalyzer.addPathParameters in Ha.
  destruct (Parser.parameters r) as [|q qs]; [congruence|].
  destruct (or (prop a "parameters") (JArr [])) as [| | | | |xs|]; try discriminate.
  destruct (AIAnalyzer.add_missing (q :: qs) xs) as [ys|m] eqn:Em; simpl in Ha; [|discriminate].
  injection Ha; intros <-.
  destruct (add_missing_spec _ _ _ Em) as [zs [-> Hall]].
  exists xs, zs. split; [reflexivity|split; [exact Hp|exact Hall]].
Qed.

Lemma validate_lists_path_parameters_witness :
  exists e, AIAnalyzer.validateAndEnhanceAnalysis Inputs.service_analysis_with_body Inputs.delete_user_route = Ok e /\
  Parser.parameters Inputs.delete_user_route <> [] /\
  exists xs zs, or (prop Inputs.service_analysis_with_body "parameters") (JArr []) = JArr xs /\
    prop e "parameters" = JArr (xs ++ zs) /\
    forall p, In p (Parser.parameters Inputs.delete_user_route) ->
      exists x, In x (xs ++ zs) /\ AIAnalyzer.name_is (prop x "name") (Parser.p_name p) = true.
Proof.
  eexists. assert (Hv : AIAnalyzer.validateAndEnhanceAnalysis Inputs.service_analysis_with_body
                          Inputs.delete_user_route = Ok _) by reflexivity.
  assert (Hn : Parser.parameters Inputs.delete_user_route <> []) by discriminate.
  split; [exact Hv|split; [exact Hn|]].
  exact (validate_lists_path_parameters _ _ _ Hv Hn).
Defined.

(** Extra: for a route without path parameters, an analysis object whose
    [parameters] is a non-empty string passes validation unchanged there, but
    then [generateSpec] throws for any list of results containing it. *)
Theorem validated_string_parameters_abort (o : Generator.options) (a : json) (r : Parser.route)
    (s : string) pre post :
  Parser.parameters r = [] -> (exists fs, a = JObj fs) -> prop a "parameters" = JStr s ->
  s <> EmptyString ->
  exists e, AIAnalyzer.validateAndEnhanceAnalysis a r = Ok e /\ prop e "parameters" = JStr s /\
    exists m, Generator.generateSpec o (pre ++ (r, e) :: post) = Throw m.
Proof.
  intros Hr [fs ->] Hs Hne.
  assert (Hp : or (prop (JObj fs) "parameters") (JArr []) = JStr s).
  { rewrite Hs. unfold or. simpl. destruct (String.eqb_spec s EmptyString); [congruence|reflexivity]. }
  unfold AIAnalyzer.validateAndEnhanceAnalysis. cbn [get bind]. rewrite Hr. cbn [AIAnalyzer.addPathParameters].
  rewrite Hp. cbn [bind].
  eexists. split; [reflexivity|]. split; [reflexivity|].
  destruct (Generator.generateSpec o _) as [spec|m] eqn:E; [|now exists m].
  exfalso.
  match type of E with context [(r, ?e)] =>
    destruct (proj2 (proj1 (generateSpec_ok_iff _ _) (ex_intro _ spec E)) (r, e)) as [op Hop];
    [apply in_app_iff; right; now left|]
  end.
  destruct (proj1 (genOp_ok _ _) (ex_intro _ op Hop)) as [ps Hps].
  destruct (proj1 (generateParameters_ok _) (ex_intro _ ps Hps)) as [Hf|[xs [Hx _]]].
  - cbn in Hf. destruct (String.eqb_spec s EmptyString); [congruence|discriminate].
  - cbn in Hx. discriminate.
Qed.

Lemma validated_string_parameters_abort_witness :
  Parser.parameters Inputs.users_get_route = [] /\
  exists e, AIAnalyzer.validateAndEnhanceAnalysis
      (JObj [("summary", JStr "List users"); ("parameters", JStr "id")]) Inputs.users_get_route = Ok e /\
    prop e "parameters" = JStr "id" /\
    exists m, Generator.generateSpec Generator.default_options ([] ++ [(Inputs.users_get_route, e)]) = Throw m.
Proof.
  split; [reflexivity|].
  apply (validated_string_parameters_abort Generator.default_options
           (JObj [("summary", JStr "List users"); ("parameters", JStr "id")]) Inputs.users_get_route
           "id" [] []); [reflexivity|eexists; reflexivity|reflexivity|discriminate].
Defined.

Section BatchProofs.

Import Parser AIAnalyzer.

Variables (create : nat -> string -> completion) (extractJSON : string -> string)
          (parseJSON : string -> result json).

Lemma batch_loop_all (routes : list route) (bs : nat) :
  0 < bs -> forall fuel i acc, List.length routes - i < fuel ->
  batch_loop create extractJSON parseJSON routes bs fuel i acc =
  Some (acc ++ map (analyzeOne create extractJSON parseJSON) (skipn i routes)).
Proof.
  intros Hbs. induction fuel as [|fuel IH]; intros i acc Hf; [lia|]. simpl.
  destruct (Nat.ltb_spec i (List.length routes)) as [Hi|Hi].
  - rewrite IH by lia. f_equal. rewrite <- app_assoc. f_equal.
    rewrite Nat.add_comm, <- skipn_skipn, <- map_app, firstn_skipn. reflexivity.
  - rewrite skipn_all2 by exact Hi. simpl. now rewrite app_nil_r.
Qed.

Lemma analyzeOne_source (r : route) :
  fst (analyzeOne create extractJSON parseJSON r) = r /\
  (snd (analyzeOne create extractJSON parseJSON r) = generateFallbackAnalysis r \/
   exists a, validateAndEnhanceAnalysis a r = Ok (snd (analyzeOne create extractJSON parseJSON r))).
Proof.
  unfold analyzeOne, analyzeRoute.
  destruct (retry_returns create extractJSON parseJSON r maxRetries 1) as [a Ha]. rewrite Ha.
  split; [reflexivity|]. simpl.
  destruct (retry_result create extractJSON parseJSON r _ _ _ Ha) as [E|[j Hj]]; [now left|].
  right. exact (attempt_validated create extractJSON parseJSON r j a Hj).
Qed.

End BatchProofs.

(** Extra: with a positive [batchSize], [analyzeBatch] ends (after at most
    [routes.length + 1] rounds of its loop) with exactly one result per route,
    in the routes' order, and each result's analysis is the route's fallback
    analysis or the output of [validateAndEnhanceAnalysis] for that route. *)
Theorem analyzeBatch_one_result_per_route create extractJSON parseJSON
    (routes : list Parser.route) (batchSize fuel : nat) :
  0 < batchSize -> List.length routes < fuel ->
  exists results,
    AIAnalyzer.analyzeBatch create extractJSON parseJSON routes batchSize fuel = Some results /\
    map fst results = routes /\
    forall x, In x results ->
      snd x = AIAnalyzer.generateFallbackAnalysis (fst x) \/
      exists a, AIAnalyzer.validateAndEnhanceAnalysis a (fst x) = Ok (snd x).
Proof.
  intros Hbs Hf. unfold AIAnalyzer.analyzeBatch.
  rewrite (batch_loop_all create extractJSON parseJSON routes batchSize Hbs fuel 0 [])
    by (rewrite Nat.sub_0_r; exact Hf).
  eexists. split; [reflexivity|]. simpl. split.
  - rewrite map_map. erewrite map_ext; [apply map_id|].
    intros r. exact (proj1 (analyzeOne_source create extractJSON parseJSON r)).
  - intros x Hx. apply in_map_iff in Hx. destruct Hx as [r [<- _]].
    destruct (analyzeOne_source create extractJSON parseJSON r) as [E H]. rewrite E. exact H.
Qed.

Lemma analyzeBatch_one_result_per_route_witness :
  0 < 3 /\ List.length [Inputs.users_get_route; Inputs.delete_user_route] < 3 /\
  exists results,
    AIAnalyzer.analyzeBatch (fun _ _ => AIAnalyzer.Failed "timeout") (fun s => s) (fun _ => Throw "parse")
      [Inputs.users_get_route; Inputs.delete_user_route] 3 3 = Some results /\
    map fst results = [Inputs.users_get_route; Inputs.delete_user_route] /\
    forall x, In x results ->
      snd x = AIAnalyzer.generateFallbackAnalysis (fst x) \/
      exists a, AIAnalyzer.validateAndEnhanceAnalysis a (fst x) = Ok (snd x).
Proof.
  split; [lia|split; [simpl; lia|]].
  apply analyzeBatch_one_result_per_route; simpl; lia.
Defined.

(** Extra: with [batchSize] 0 and at least one route, the loop of
    [analyzeBatch] never ends ([i] stays 0): no number of rounds finishes it. *)
Theorem analyzeBatch_zero_batch_diverges create extractJSON parseJSON
    (routes : list Parser.route) (fuel : nat) :
  routes <> [] -> AIAnalyzer.analyzeBatch create extractJSON parseJSON routes 0 fuel = None.
Proof.
  intros Hne. unfold AIAnalyzer.analyzeBatch. generalize (@nil (Parser.route * json)).
  induction fuel as [|fuel IH]; intros acc; simpl; [reflexivity|].
  destruct routes as [|r rs]; [congruence|]. simpl. apply IH.
Qed.

Lemma analyzeBatch_zero_batch_diverges_witness :
  AIAnalyzer.analyzeBatch (fun _ _ => AIAnalyzer.Failed "timeout") (fun s => s) (fun _ => Throw "parse")
    [Inputs.users_get_route] 0 100 = None.
Proof. apply analyzeBatch_zero_batch_diverges. discriminate. Defined.

Section ContentProofs.

Import ContentScan.

Local Open Scope string_scope.

Lemma prefix_split (p s : string) : prefix p s = true -> exists b, s = p ++ b.
Proof.
  revert s. induction p as [|c p IH]; intros s H; [now exists s|].
  destruct s as [|c' s]; simpl in H; [discriminate|].
  destruct (Ascii.ascii_dec c c') as [<-|]; [|discriminate].
  destruct (IH _ H) as [b ->]. now exists b.
Qed.

Lemma includes_split (s p : string) :
  includes s p = true -> exists a b, s = a ++ p ++ b.
Proof.
  induction s as [|c s IH]; intros H.
  - destruct p; [exists EmptyString, EmptyString; reflexivity|discriminate].
  - change (includes (String c s) p) with (prefix p (String c s) || includes s p) in H.
    apply orb_true_iff in H. destruct H as [H|H].
    + exists EmptyString. destruct (prefix_split _ _ H) as [b ->]. now exists b.
    + destruct (IH H) as [a [b ->]]. exists (String c a), b. reflexivity.
Qed.

Lemma toLowerCase_app (x y : string) : toLowerCase (x ++ y) = toLowerCase x ++ toLowerCase y.
Proof. induction x as [|c x IH]; simpl; [reflexivity|now rewrite IH]. Qed.

Lemma toLowerCase_split (s x y : string) :
  toLowerCase s = x ++ y -> exists x' y', s = x' ++ y' /\ toLowerCase x' = x /\ toLowerCase y' = y.
Proof.
  revert s. induction x as [|c x IH]; intros s H.
  - exists EmptyString, s. split; [reflexivity|split; [reflexivity|exact H]].
  - destruct s as [|c' s]; simpl in H; [discriminate|].
    injection H; intros H1 H2. destruct (IH _ H1) as [x' [y' [-> [Hx Hy]]]].
    exists (String c' x'), y'. simpl. rewrite Hx, H2. split; [reflexivity|split; [reflexivity|exact Hy]].
Qed.

Lemma in_suffixes (a t : string) : In t (suffixes (a ++ t)).
Proof.
  induction a as [|c a IH]; simpl; [destruct t; now left|now right].
Qed.

Lemma test_at (e : regex) (a t u : string) : In u (matches e t) -> test e (a ++ t) = true.
Proof.
  intros H. unfold test. apply existsb_exists. exists t. split; [apply in_suffixes|].
  destruct (matches e t); [destruct H|reflexivity].
Qed.

Lemma matches_lit (w rest : string) : In rest (matches (lit w) (w ++ rest)).
Proof.
  induction w as [|c w IH]; simpl; [now left|].
  rewrite Ascii.eqb_refl. simpl. rewrite app_nil_r. exact IH.
Qed.

Lemma matches_ilit (w w' rest : string) :
  toLowerCase w' = toLowerCase w -> In rest (matches (ilit w) (w' ++ rest)).
Proof.
  revert w'. induction w as [|c w IH]; intros w' H; destruct w' as [|c' w']; simpl in H |- *;
    try discriminate; [now left|].
  injection H; intros H1 H2. rewrite H2, Ascii.eqb_refl. simpl. rewrite app_nil_r. exact (IH _ H1).
Qed.

Lemma matches_seq (a b : regex) (s t u : string) :
  In t (matches a s) -> In u (matches b t) -> In u (matches (RSeq a b) s).
Proof. intros H1 H2. simpl. apply in_flat_map. eauto. Qed.

Lemma matches_alt_l (a b : regex) (s u : string) : In u (matches a s) -> In u (matches (RAlt a b) s).
Proof. intros H. simpl. apply in_app_iff. now left. Qed.

Lemma matches_alt_r (a b : regex) (s u : string) : In u (matches b s) -> In u (matches (RAlt a b) s).
Proof. intros H. simpl. apply in_app_iff. now right. Qed.

Lemma matches_star_nil (p : ascii -> bool) (s : string) : In s (matches (RStar p) s).
Proof. simpl. destruct s; now left. Qed.

Lemma filter_two {A} (f : A -> bool) (l1 l2 l3 : list A) (x y : A) :
  f x = true -> f y = true -> (2 <= List.length (filter f (app l1 (x :: app l2 (y :: l3)))))%nat.
Proof.
  intros Hx Hy. rewrite filter_app, length_app. simpl. rewrite Hx. simpl.
  rewrite filter_app, length_app. simpl. rewrite Hy. simpl. lia.
Qed.

(** A content mentioning one of the tool names of the last config regex
    (in any case) is classified as configuration. *)
Lemma config_word (c w : string) :
  In w ["webpack"; "babel"; "jest"; "eslint"; "prettier"] ->
  includes (toLowerCase c) w = true -> looksLikeConfigFile c = true.
Proof.
  intros Hw H. destruct (includes_split _ _ H) as [a [b Hab]].
  destruct (toLowerCase_split c a (w ++ b) Hab) as [a' [wb [-> [_ Hwb]]]].
  destruct (toLowerCase_split wb w b Hwb) as [w' [b' [-> [Hw' _]]]].
  unfold looksLikeConfigFile. apply existsb_exists.
  exists (alts [ilit "webpack"; ilit "babel"; ilit "jest"; ilit "eslint"; ilit "prettier"]).
  split; [do 5 right; left; reflexivity|].
  apply (test_at _ a' (w' ++ b') b').
  assert (Hl : toLowerCase w' = toLowerCase w).
  { rewrite Hw'. destruct Hw as [<-|[<-|[<-|[<-|[<-|[]]]]]]; reflexivity. }
  destruct Hw as [<-|[<-|[<-|[<-|[<-|[]]]]]]; cbn [alts].
  - apply matches_alt_l, matches_ilit, Hl.
  - apply matches_alt_r, matches_alt_l, matches_ilit, Hl.
  - apply matches_alt_r, matches_alt_r, matches_alt_l, matches_ilit, Hl.
  - apply matches_alt_r, matches_alt_r, matches_alt_r, matches_alt_l, matches_ilit, Hl.
  - apply matches_alt_r, matches_alt_r, matches_alt_r, matches_alt_r, matches_ilit, Hl.
Qed.

Lemma test_word_paren (w c : string) :
  includes c (w ++ "(") = true -> test (seqs [lit w; sp; lit "("]) c = true.
Proof.
  intros H. destruct (includes_split _ _ H) as [a [b ->]].
  rewrite string_app_assoc. apply (test_at _ a _ b).
  eapply matches_seq; [apply matches_lit|].
  eapply matches_seq; [apply matches_star_nil|].
  eapply matches_seq; [apply (matches_lit "(" b)|]. simpl. now left.
Qed.

End ContentProofs.

(** Extra: a file whose content mentions [webpack], [babel], [jest],
    [eslint] or [prettier] in any case (for instance an
    [// eslint-disable-next-line] comment) is never reported as a route file,
    whatever routes it defines. *)
Theorem containsRoutes_rejects_tool_names (c w : string) :
  In w ["webpack"; "babel"; "jest"; "eslint"; "prettier"] ->
  includes (toLowerCase c) w = true ->
  ContentScan.containsRoutes (Some c) = false.
Proof.
  intros Hw H. unfold ContentScan.containsRoutes, Scanner.containsRoutes, ContentScan.contentHasRoutes.
  destruct (ContentScan.looksLikeTestFile c); [reflexivity|].
  rewrite (config_word c w Hw H). reflexivity.
Qed.

Lemma containsRoutes_rejects_tool_names_witness :
  ContentScan.containsRoutes
    (Some ("// eslint-disable-next-line" ++ String "010" "router.get('/users', listUsers);")%string) = false.
Proof. apply (containsRoutes_rejects_tool_names _ "eslint"); [simpl; tauto|vm_compute; reflexivity]. Defined.

(** Extra: a content containing both [it(] (as in [.split(] or [submit(])
    and [test(] (as in a regular expression's [.test(]) counts two test
    indicators and is never reported as a route file. *)
Theorem containsRoutes_rejects_it_and_test (c : string) :
  includes c "it(" = true -> includes c "test(" = true ->
  ContentScan.containsRoutes (Some c) = false.
Proof.
  intros H1 H2. unfold ContentScan.containsRoutes, Scanner.containsRoutes, ContentScan.contentHasRoutes.
  replace (ContentScan.looksLikeTestFile c) with true; [reflexivity|].
  symmetry. unfold ContentScan.looksLikeTestFile. apply Nat.leb_le.
  change ContentScan.testPatterns with
    (app [ContentScan.seqs [ContentScan.lit "describe"; ContentScan.sp; ContentScan.lit "("]]
     (ContentScan.seqs [ContentScan.lit "it"; ContentScan.sp; ContentScan.lit "("] ::
      app [] (ContentScan.seqs [ContentScan.lit "test"; ContentScan.sp; ContentScan.lit "("] ::
      skipn 3 ContentScan.testPatterns))).
  apply filter_two; apply test_word_paren; assumption.
Qed.

Lemma containsRoutes_rejects_it_and_test_witness :
  ContentScan.containsRoutes
    (Some "router.get('/users/:id', (req, res) => res.send(/^[0-9]+$/.test(req.params.id) ? req.path.split('/') : []));") = false.
Proof. apply containsRoutes_rejects_it_and_test; vm_compute; reflexivity. Defined.

Section ParserShapes.

Import Parser.

Lemma extractRoute_shape (e : expr) (sc : string) (r : route) :
  extractRoute e sc = Some r ->
  In (method r) ["GET"; "POST"; "PUT"; "DELETE"; "PATCH"; "OPTIONS"; "HEAD"]%string /\
  path r <> EmptyString /\ parameters r = extractParameters (path r).
Proof.
  destruct e as [s0 e0 n]. destruct n as [| | | |c args| | | |]; try discriminate.
  destruct c as [s1 e1 cn]. destruct cn as [| | |o p| | | | |]; try discriminate.
  destruct p as [s2 e2 pn]. destruct pn as [pr| | | | | | | |]; try discriminate.
  unfold extractRoute.
  destruct (existsb (String.eqb (toLowerCase pr)) httpMethods) eqn:Hm; [|discriminate].
  destruct (extractRoutePath (hd_error args)) as [rp|]; [|discriminate].
  destruct (String.eqb_spec rp EmptyString) as [|Hne]; [discriminate|].
  intros H. injection H; intros <-. simpl. split; [|split; [exact Hne|reflexivity]].
  apply existsb_exists in Hm. destruct Hm as [m [Hin Heq]]. apply String.eqb_eq in Heq.
  rewrite Heq. simpl in Hin.
  destruct Hin as [<-|[<-|[<-|[<-|[<-|[<-|[<-|[]]]]]]]]; simpl; tauto.
Qed.

Lemma extractRoutes_shape (ast : program) (content filePath : string) (r : route) :
  In r (extractRoutes ast content filePath) ->
  In (method r) ["GET"; "POST"; "PUT"; "DELETE"; "PATCH"; "OPTIONS"; "HEAD"]%string /\
  path r <> EmptyString /\ parameters r = extractParameters (path r) /\ file r = filePath.
Proof.
  unfold extractRoutes. intros H. apply in_map_iff in H. destruct H as [r0 [<- H]].
  apply in_flat_map in H. destruct H as [c [_ H]].
  destruct (extractRoute c content) as [r1|] eqn:E; [|destruct H].
  destruct H as [<-|[]]. destruct (extractRoute_shape _ _ _ E) as [H1 [H2 H3]].
  simpl. tauto.
Qed.

End ParserShapes.

(** Extra: every route [parseFile] returns has an upper-case HTTP method
    among [GET], [POST], [PUT], [DELETE], [PATCH], [OPTIONS] and [HEAD], a
    non-empty path, the parameters [extractParameters] finds in that path,
    and the parsed file as [file]. *)
Theorem parseFile_route_shape readFile parse (filePath : string) routes logs (r : Parser.route) :
  Parser.parseFile readFile parse filePath = Ok (routes, logs) -> In r routes ->
  In (Parser.method r) ["GET"; "POST"; "PUT"; "DELETE"; "PATCH"; "OPTIONS"; "HEAD"]%string /\
  Parser.path r <> EmptyString /\
  Parser.parameters r = Parser.extractParameters (Parser.path r) /\ Parser.file r = filePath.
Proof.
  unfold Parser.parseFile, try_catch.
  destruct (readFile filePath) as [content|m]; simpl.
  - destruct (parse content) as [ast|m]; simpl; intros H; injection H; intros _ <-.
    + apply extractRoutes_shape.
    + intros [].
  - intros H; injection H; intros _ <-. intros [].
Qed.

Lemma parseFile_route_shape_witness :
  Parser.parseFile (fun _ => Ok Inputs.users_id_source) (fun _ => Ok Inputs.users_id_ast) "routes/users.js" =
    Ok (Parser.extractRoutes Inputs.users_id_ast Inputs.users_id_source "routes/users.js", []) /\
  In (hd Inputs.users_get_route (Parser.extractRoutes Inputs.users_id_ast Inputs.users_id_source "routes/users.js"))
     (Parser.extractRoutes Inputs.users_id_ast Inputs.users_id_source "routes/users.js") /\
  (In (Parser.method (hd Inputs.users_get_route (Parser.extractRoutes Inputs.users_id_ast Inputs.users_id_source "routes/users.js")))
     ["GET"; "POST"; "PUT"; "DELETE"; "PATCH"; "OPTIONS"; "HEAD"]%string /\
   Parser.path (hd Inputs.users_get_route (Parser.extractRoutes Inputs.users_id_ast Inputs.users_id_source "routes/users.js")) <> EmptyString /\
   Parser.parameters (hd Inputs.users_get_route (Parser.extractRoutes Inputs.users_id_ast Inputs.users_id_source "routes/users.js")) =
     Parser.extractParameters (Parser.path (hd Inputs.users_get_route (Parser.extractRoutes Inputs.users_id_ast Inputs.users_id_source "routes/users.js"))) /\
   Parser.file (hd Inputs.users_get_route (Parser.extractRoutes Inputs.users_id_ast Inputs.users_id_source "routes/users.js")) = "routes/users.js").
Proof.
  assert (Hp : Parser.parseFile (fun _ => Ok Inputs.users_id_source) (fun _ => Ok Inputs.users_id_ast) "routes/users.js" =
    Ok (Parser.extractRoutes Inputs.users_id_ast Inputs.users_id_source "routes/users.js", [])) by reflexivity.
  assert (Hi : In (hd Inputs.users_get_route (Parser.extractRoutes Inputs.users_id_ast Inputs.users_id_source "routes/users.js"))
     (Parser.extractRoutes Inputs.users_id_ast Inputs.users_id_source "routes/users.js")) by (vm_compute; left; reflexivity).
  split; [exact Hp|split; [exact Hi|]].
  exact (parseFile_route_shape _ _ _ _ _ _ Hp Hi).
Defined.

(** Extra: a file whose lower-cased name contains a lower-cased pattern of
    [exclude] anywhere is never processed (with the defaults, [blogs.js]
    contains [logs] and [templates.js] contains [temp]). *)
Theorem shouldProcessFile_rejects_exclude_substring (o : Scanner.options) (filename p : string)
    (stat : option nat) :
  In p (Scanner.exclude o) -> includes (toLowerCase filename) (toLowerCase p) = true ->
  Scanner.shouldProcessFile o filename stat = false.
Proof.
  intros Hp Hi. unfold Scanner.shouldProcessFile, Scanner.isExcludedFile.
  destruct (negb (Scanner.isValidFile o filename)); [reflexivity|].
  destruct (existsb (fun b => b) (Scanner.testPatterns filename)); [reflexivity|].
  destruct (existsb _ Scanner.configPatterns); [reflexivity|].
  replace (existsb _ (Scanner.exclude o)) with true; [reflexivity|].
  symmetry. apply existsb_exists. exists p. split; assumption.
Qed.

Lemma shouldProcessFile_rejects_exclude_substring_witness :
  Scanner.shouldProcessFile Scanner.default_options "blogs.js" (Some 2048) = false.
Proof.
  apply (shouldProcessFile_rejects_exclude_substring _ _ "logs"); [simpl; tauto|reflexivity].
Defined.

Section FormatCode.

Local Open Scope string_scope.

Import TextShape.

Lemma trimStart_lead (s : string) : lead_ok (trimStart s).
Proof.
  induction s as [|c s IH]; simpl; [exact I|].
  destruct (is_space c) eqn:E; [exact IH|exact E].
Qed.

Lemma trimStart_id (s : string) : lead_ok s -> trimStart s = s.
Proof. destruct s as [|c s]; simpl; [reflexivity|]. intros ->. reflexivity. Qed.

Lemma trimStart_suffix (s : string) : exists p, s = p ++ trimStart s.
Proof.
  induction s as [|c s [p Hp]]; simpl; [now exists EmptyString|].
  destruct (is_space c); [exists (String c p); simpl; now rewrite <- Hp|now exists EmptyString].
Qed.

Lemma string_rev_involutive (s : string) : string_rev (string_rev s) = s.
Proof.
  unfold string_rev. rewrite list_ascii_of_string_of_list_ascii, rev_involutive.
  apply string_of_list_ascii_of_string.
Qed.

Lemma list_ascii_app (a b : string) :
  list_ascii_of_string (a ++ b) = app (list_ascii_of_string a) (list_ascii_of_string b).
Proof. induction a as [|c a IH]; simpl; [reflexivity|now rewrite IH]. Qed.

Lemma string_rev_app (a b : string) : string_rev (a ++ b) = string_rev b ++ string_rev a.
Proof.
  unfold string_rev. rewrite list_ascii_app, rev_app_distr.
  remember (rev (list_ascii_of_string b)) as x. remember (rev (list_ascii_of_string a)) as y.
  clear. induction x as [|c x IH]; simpl; [reflexivity|now rewrite IH].
Qed.

(** [trim s] is a piece of [s] with no white space at either end. *)
Lemma trim_piece (s : string) :
  exists p q, s = p ++ trim s ++ q /\ lead_ok (trim s) /\ lead_ok (string_rev (trim s)).
Proof.
  unfold trim. set (t := trimStart s).
  destruct (trimStart_suffix s) as [p Hp]. fold t in Hp.
  destruct (trimStart_suffix (string_rev t)) as [p' Hp'].
  set (u := trimStart (string_rev t)) in Hp' |- *.
  assert (Ht : t = string_rev u ++ string_rev p').
  { rewrite <- (string_rev_involutive t), Hp', string_rev_app. reflexivity. }
  exists p, (string_rev p'). split; [|split].
  - rewrite Hp at 1. rewrite Ht. reflexivity.
  - assert (Hl : lead_ok t) by apply trimStart_lead.
    rewrite Ht in Hl. destruct (string_rev u) as [|c r]; simpl in *; [exact I|exact Hl].
  - rewrite string_rev_involutive. apply trimStart_lead.
Qed.

Lemma trim_idem (s : string) : trim (trim s) = trim s.
Proof.
  destruct (trim_piece s) as [p [q [_ [H1 H2]]]].
  unfold trim at 1. rewrite (trimStart_id _ H1), (trimStart_id _ H2). apply string_rev_involutive.
Qed.

Lemma free_of_app (c : ascii) (a b : string) : free_of c (a ++ b) -> free_of c a /\ free_of c b.
Proof.
  unfold free_of. rewrite list_ascii_app. intros H. split; intros x Hx; apply H, in_app_iff; tauto.
Qed.

Lemma trim_free_of (c : ascii) (s : string) : free_of c s -> free_of c (trim s).
Proof.
  destruct (trim_piece s) as [p [q [Hs _]]]. intros H. rewrite Hs in H.
  apply free_of_app in H. destruct H as [_ H]. apply free_of_app in H. tauto.
Qed.

Lemma split_free_of (c : ascii) (s l : string) : In l (split c s) -> free_of c l.
Proof.
  revert l. induction s as [|c' s IH]; intros l; simpl.
  - intros [<-|[]] x [].
  - destruct (Ascii.eqb_spec c' c) as [->|Hne].
    + intros [<-|Hl]; [intros x []|exact (IH _ Hl)].
    + destruct (split c s) as [|h t] eqn:E.
      * intros [<-|[]] x [<-|[]]. exact Hne.
      * intros [<-|Hl]; [|apply IH; now right].
        intros x [<-|Hx]; [exact Hne|]. apply (IH h); [now left|exact Hx].
Qed.

Lemma split_free (c : ascii) (x : string) : free_of c x -> split c x = [x].
Proof.
  induction x as [|c' x IH]; intros H; simpl; [reflexivity|].
  destruct (Ascii.eqb_spec c' c) as [->|Hne]; [exfalso; exact (H c (or_introl eq_refl) eq_refl)|].
  rewrite IH; [reflexivity|]. intros y Hy. apply H. now right.
Qed.

Lemma split_free_app (c : ascii) (x r : string) :
  free_of c x -> split c (x ++ String c r) = x :: split c r.
Proof.
  induction x as [|c' x IH]; intros H; simpl.
  - now rewrite Ascii.eqb_refl.
  - destruct (Ascii.eqb_spec c' c) as [->|Hne]; [exfalso; exact (H c (or_introl eq_refl) eq_refl)|].
    rewrite IH; [reflexivity|]. intros y Hy. apply H. now right.
Qed.

Lemma split_concat_with (c : ascii) (ls : list string) :
  ls <> [] -> (forall l, In l ls -> free_of c l) ->
  split c (concat_with (String c EmptyString) ls) = ls.
Proof.
  induction ls as [|x ls IH]; intros Hne H; [congruence|].
  destruct ls as [|y ls].
  - simpl. apply split_free, H. now left.
  - change (concat_with (String c EmptyString) (x :: y :: ls))
      with (x ++ String c (concat_with (String c EmptyString) (y :: ls))).
    rewrite split_free_app by (apply H; now left).
    rewrite IH; [reflexivity|discriminate|]. intros l Hl. apply H. now right.
Qed.

Lemma filter_trim_id (ls : list string) :
  (forall l, In l ls -> l <> EmptyString /\ trim l = l) ->
  filter (fun l => negb (String.eqb l EmptyString)) (map trim ls) = ls.
Proof.
  induction ls as [|y ys IH]; intros H; [reflexivity|]. simpl.
  destruct (H y (or_introl eq_refl)) as [Hy Ht]. rewrite Ht.
  destruct (String.eqb_spec y EmptyString) as [|_]; [contradiction|]. simpl. f_equal.
  apply IH. intros l Hl. apply H. now right.
Qed.

End FormatCode.

(** Extra: [formatCode] is idempotent: its output has no empty line and every
    line is already trimmed, so formatting it again changes nothing. *)
Theorem formatCode_idempotent (code : string) :
  Parser.formatCode (Parser.formatCode code) = Parser.formatCode code.
Proof.
  unfold Parser.formatCode at 2 3.
  set (ls := filter (fun l => negb (String.eqb l EmptyString)) (map trim (split "010"%char code))).
  assert (Hls : forall l, In l ls -> l <> EmptyString /\ trim l = l /\ TextShape.free_of "010"%char l).
  { intros l Hl. unfold ls in Hl. apply filter_In in Hl. destruct Hl as [Hl Hn].
    apply in_map_iff in Hl. destruct Hl as [l0 [<- Hl0]].
    split; [intros E; rewrite E in Hn; discriminate|split; [apply trim_idem|]].
    apply trim_free_of, (split_free_of _ code), Hl0. }
  destruct ls as [|x xs] eqn:El.
  - reflexivity.
  - unfold Parser.formatCode. rewrite split_concat_with by (discriminate || (intros l Hl; apply Hls, Hl)).
    f_equal. apply filter_trim_id. intros l Hl. destruct (Hls l Hl) as [H1 [H2 _]]. now split.
Qed.

Section TemplatePaths.

Import Parser TextShape.

Local Open Scope string_scope.

Lemma nat_to_string_word (n : nat) : forallb is_word (list_ascii_of_string (nat_to_string n)) = true.
Proof.
  unfold nat_to_string. induction (Nat.to_uint n) as [|d IH|d IH|d IH|d IH|d IH|d IH|d IH|d IH|d IH|d IH];
    simpl; try rewrite IH; reflexivity.
Qed.

Lemma colon_matches_end_nonword (w rest : string) :
  lead_nonword rest -> colon_matches (MIn w) rest = w :: colon_matches MOut rest.
Proof.
  destruct rest as [|c r]; simpl; [reflexivity|]. intros Hc. rewrite Hc. reflexivity.
Qed.

Lemma colon_matches_skip (q rest : string) :
  free_of ":"%char q -> colon_matches MOut (q ++ rest) = colon_matches MOut rest.
Proof.
  induction q as [|c q IH]; intros H; simpl; [reflexivity|].
  destruct (Ascii.eqb_spec c ":") as [->|Hne]; [exfalso; exact (H ":"%char (or_introl eq_refl) eq_refl)|].
  apply IH. intros x Hx. apply H. now right.
Qed.

Lemma template_path_lead (j n : nat) (q : string) (qs : list string) :
  List.length (q :: qs) = S (n - j) -> lead_nonword q -> lead_nonword (template_path j n (q :: qs)).
Proof.
  intros Hl Hq. simpl. destruct q as [|c q]; [|exact Hq].
  simpl. destruct (Nat.ltb_spec j n) as [Hj|Hj]; [exact eq_refl|].
  simpl in Hl. assert (qs = []) as -> by (destruct qs; [reflexivity|simpl in Hl; lia]). exact I.
Qed.

Lemma template_path_params (n : nat) : forall (quasis : list string) (i : nat),
  List.length quasis = S (n - i) -> i <= n ->
  (forall q, In q quasis -> free_of ":"%char q) ->
  (forall q, In q (tl quasis) -> lead_nonword q) ->
  colon_matches MOut (template_path i n quasis) =
  map (fun j => "param" ++ nat_to_string j) (seq i (n - i)).
Proof.
  induction quasis as [|q qs IH]; intros i Hl Hi Hf Hn; [discriminate|].
  simpl in Hl. injection Hl as Hl. simpl template_path.
  rewrite colon_matches_skip by (apply Hf; now left).
  destruct (Nat.ltb_spec i n) as [Hlt|Hge].
  - destruct qs as [|q' qs']; [simpl in Hl; lia|].
    replace (n - i) with (S (n - S i)) by lia. simpl seq. simpl map.
    remember (template_path (S i) n (q' :: qs')) as T eqn:ET.
    change (":param" ++ nat_to_string i ++ T)
      with (String ":" (String "p" (String "a" (String "r" (String "a" (String "m" (nat_to_string i ++ T))))))).
    simpl colon_matches at 1.
    rewrite colon_matches_word by apply nat_to_string_word.
    rewrite ET.
    rewrite colon_matches_end_nonword
      by (apply template_path_lead; [simpl in Hl |- *; lia|apply Hn; now left]).
    f_equal. apply IH; [simpl in Hl |- *; lia|lia|intros x Hx; apply Hf; now right|].
    intros x Hx. apply Hn. simpl. destruct qs'; [destruct Hx|now right].
  - assert (i = n) as -> by lia. rewrite Nat.sub_diag in Hl |- *.
    destruct qs; [|discriminate]. reflexivity.
Qed.

End TemplatePaths.

(** Extra: a route path written as a template literal with [n] expressions
    (and [n + 1] quasis, none containing [:], each after the first being
    empty or starting with a non-word character) yields the path parameters
    [param0], ..., [param(n-1)], in this order. *)
Theorem extractRoutePath_template_params (s e : nat) (quasis : list string)
    (exprs : list Parser.expr) :
  List.length quasis = S (List.length exprs) ->
  (forall q, In q quasis -> TextShape.free_of ":"%char q) ->
  (forall q, In q (tl quasis) -> TextShape.lead_nonword q) ->
  exists p, Parser.extractRoutePath (Some (Parser.Node s e (Parser.TemplateLiteral quasis exprs))) = Some p /\
    map Parser.p_name (Parser.extractParameters p) =
    map (fun i => ("param" ++ nat_to_string i)%string) (seq 0 (List.length exprs)).
Proof.
  intros Hl Hf Hn. eexists. split; [reflexivity|].
  unfold Parser.extractParameters. rewrite map_map. simpl. rewrite map_id.
  rewrite (template_path_params (List.length exprs) quasis 0); [|rewrite Nat.sub_0_r; exact Hl|lia|exact Hf|exact Hn].
  now rewrite Nat.sub_0_r.
Qed.

Lemma extractRoutePath_template_params_witness :
  exists p, Parser.extractRoutePath
    (Some (Parser.Node 8 40 (Parser.TemplateLiteral ["/users/"; "/posts/"; ""]
      [Parser.Node 17 23 (Parser.Identifier "userId"); Parser.Node 32 38 (Parser.Identifier "postId")]))) = Some p /\
    map Parser.p_name (Parser.extractParameters p) =
    map (fun i => ("param" ++ nat_to_string i)%string) (seq 0 2).
Proof.
  apply (extractRoutePath_template_params 8 40 ["/users/"; "/posts/"; ""]
           [Parser.Node 17 23 (Parser.Identifier "userId"); Parser.Node 32 38 (Parser.Identifier "postId")]).
  - reflexivity.
  - intros q Hq x Hx. simpl in Hq.
    destruct Hq as [<-|[<-|[<-|[]]]]; simpl in Hx; intuition (subst; discriminate).
  - intros q Hq. simpl in Hq. destruct Hq as [<-|[<-|[]]]; [reflexivity|exact I].
Defined.

Section EnhancedParserProofs.

Import Parser EnhancedParser TextShape.

Local Open Scope string_scope.

Lemma replace_non_alnum_eq (p1 p2 : string) :
  replace_non_alnum p1 = replace_non_alnum p2 <->
  Forall2 (fun a b => a = b \/ (is_alnum a = false /\ is_alnum b = false))
    (list_ascii_of_string p1) (list_ascii_of_string p2).
Proof.
  revert p2. induction p1 as [|c1 p1 IH]; intros [|c2 p2]; simpl.
  - split; intros _; constructor.
  - split; [discriminate|intros H; inversion H].
  - split; [discriminate|intros H; inversion H].
  - split.
    + intros H. injection H; intros Hr Hc. constructor; [|apply IH, Hr].
      destruct (is_alnum c1) eqn:E1, (is_alnum c2) eqn:E2.
      * now left.
      * subst c1. simpl in E1. discriminate.
      * subst c2. simpl in E2. discriminate.
      * right. now split.
    + intros H. inversion H as [|? ? ? ? Hc Hr]; subst. f_equal; [|apply IH, Hr].
      destruct Hc as [<-|[E1 E2]]; [reflexivity|now rewrite E1, E2].
Qed.

Lemma string_app_inv_head (a x y : string) : a ++ x = a ++ y -> x = y.
Proof. induction a as [|c a IH]; simpl; [tauto|]. intros H. injection H. exact IH. Qed.

Lemma brace_matches_free (p : string) : free_of "{"%char p -> brace_matches BOut p = [].
Proof.
  induction p as [|c p IH]; intros H; simpl; [reflexivity|].
  destruct (Ascii.eqb_spec c "{") as [->|_]; [exfalso; exact (H "{"%char (or_introl eq_refl) eq_refl)|].
  apply IH. intros x Hx. apply H. now right.
Qed.

Lemma brace_fold (bs : list string) : forall ps : list param,
  exists zs,
    map p_name (fold_left (fun ps name =>
               if existsb (fun p => String.eqb (p_name p) name) ps then ps
               else app ps [path_param name]) bs ps) = app (map p_name ps) zs /\
    NoDup zs /\ (forall z, In z zs -> ~ In z (map p_name ps) /\ In z bs) /\
    (forall b, In b bs -> In b (app (map p_name ps) zs)).
Proof.
  induction bs as [|b bs IH]; intros ps; simpl.
  - exists []. rewrite app_nil_r. split; [reflexivity|split; [constructor|split; [intros z []|intros b []]]].
  - destruct (existsb (fun p => String.eqb (p_name p) b) ps) eqn:E.
    + destruct (IH ps) as [zs [H1 [H2 [H3 H4]]]]. exists zs.
      split; [exact H1|split; [exact H2|split]].
      * intros z Hz. destruct (H3 z Hz). split; [assumption|now right].
      * intros b' [<-|Hb]; [|exact (H4 b' Hb)].
        apply existsb_exists in E. destruct E as [p [Hp Hq]]. apply String.eqb_eq in Hq.
        apply in_app_iff. left. rewrite <- Hq. now apply in_map.
    + destruct (IH (app ps [path_param b])) as [zs [H1 [H2 [H3 H4]]]].
      rewrite map_app in H1, H3, H4. simpl in H1, H3, H4.
      assert (Hnb : ~ In b (map p_name ps)).
      { intros Hin. apply in_map_iff in Hin. destruct Hin as [p [Hp Hin]].
        assert (Hx : existsb (fun p => String.eqb (p_name p) b) ps = true)
          by (apply existsb_exists; exists p; split; [exact Hin|now apply String.eqb_eq]).
        congruence. }
      exists (b :: zs). split; [rewrite H1, <- app_assoc; reflexivity|split; [|split]].
      * constructor; [|exact H2]. intros Hz. destruct (H3 b Hz) as [Hn _].
        apply Hn, in_app_iff. right. now left.
      * intros z [<-|Hz]; [split; [exact Hnb|now left]|].
        destruct (H3 z Hz) as [Hn Hb]. split; [intros Hi; apply Hn, in_app_iff; now left|now right].
      * intros b' [<-|Hb].
        -- apply in_app_iff. right. now left.
        -- rewrite <- app_assoc in H4. exact (H4 b' Hb).
Qed.

Lemma split_nonempty (c : ascii) (s : string) : split c s <> [].
Proof.
  destruct s as [|c' s]; simpl; [discriminate|].
  destruct (Ascii.eqb c' c); [discriminate|]. destruct (split c s); discriminate.
Qed.

Lemma concat_with_split (c : ascii) (s : string) : concat_with (String c EmptyString) (split c s) = s.
Proof.
  induction s as [|c' s IH]; simpl; [reflexivity|].
  destruct (Ascii.eqb_spec c' c) as [->|Hne].
  - pose proof (split_nonempty c s) as Hne.
    destruct (split c s) as [|h t]; [congruence|]. simpl. rewrite <- IH. reflexivity.
  - pose proof (split_nonempty c s) as Hn.
    destruct (split c s) as [|h t]; [congruence|].
    destruct t as [|h' t']; simpl in IH |- *; now rewrite IH.
Qed.

Lemma substring_all (s : string) : substring 0 (String.length s) s = s.
Proof. induction s as [|c s IH]; simpl; [reflexivity|now rewrite IH]. Qed.

Lemma tag_line_free (tag v : string) :
  free_of "010"%char tag -> free_of "010"%char v -> free_of "010"%char ("@" ++ tag ++ " " ++ v).
Proof.
  intros Ht Hv x Hx. rewrite list_ascii_app in Hx. simpl in Hx.
  destruct Hx as [<-|Hx]; [discriminate|]. rewrite list_ascii_app in Hx. apply in_app_iff in Hx.
  destruct Hx as [Hx|[<-|Hx]]; [exact (Ht x Hx)|discriminate|exact (Hv x Hx)].
Qed.

Lemma lead_ok_app (a b : string) : a <> EmptyString -> lead_ok a -> lead_ok (a ++ b).
Proof. destruct a; simpl; [congruence|tauto]. Qed.

Lemma trim_id (s : string) : lead_ok s -> lead_ok (string_rev s) -> trim s = s.
Proof.
  intros H1 H2. unfold trim. rewrite (trimStart_id _ H1), (trimStart_id _ H2). apply string_rev_involutive.
Qed.

Lemma string_rev_nonempty (s : string) : s <> EmptyString -> string_rev s <> EmptyString.
Proof. intros H E. apply H. rewrite <- (string_rev_involutive s), E. reflexivity. Qed.

Lemma jsdoc_tag_line (d : string) (acc : list (string * string)) (tag v : string) :
  free_of " "%char tag -> v <> EmptyString -> lead_ok (string_rev v) ->
  jsdoc_line (d, acc) ("@" ++ tag ++ " " ++ v) = (d, app acc [(tag, v)]).
Proof.
  intros Ht Hv Hr. unfold jsdoc_line.
  rewrite trim_id.
  2:{ exact eq_refl. }
  2:{ replace ("@" ++ tag ++ " " ++ v) with (("@" ++ tag ++ " ") ++ v)
        by (rewrite !string_app_assoc; reflexivity).
      rewrite string_rev_app. apply lead_ok_app; [apply string_rev_nonempty, Hv|exact Hr]. }
  change (strip_star ("@" ++ tag ++ " " ++ v)) with ("@" ++ tag ++ " " ++ v).
  assert (Hs : startsWith ("@" ++ tag ++ " " ++ v) "@" = true)
    by (unfold startsWith; simpl; destruct (ascii_dec "@" "@"); [destruct tag; reflexivity|congruence]).
  rewrite Hs.
  change (" " ++ v) with (String " " v). rewrite <- string_app_assoc, split_free_app.
  2:{ intros x Hx. simpl in Hx. destruct Hx as [<-|Hx]; [discriminate|exact (Ht x Hx)]. }
  simpl fst. simpl snd. rewrite concat_with_split. simpl String.length.
  replace (S (String.length tag) - 1) with (String.length tag) by lia.
  change (substring 1 (String.length tag) ("@" ++ tag)) with (substring 0 (String.length tag) tag).
  rewrite substring_all. reflexivity.
Qed.

Lemma jsdoc_tag_lines (tvs : list (string * string)) : forall acc,
  (forall tv, In tv tvs -> free_of " "%char (fst tv) /\ snd tv <> EmptyString /\
                            lead_ok (string_rev (snd tv))) ->
  fold_left jsdoc_line (map (fun tv => "@" ++ fst tv ++ " " ++ snd tv) tvs) (EmptyString, acc) =
  (EmptyString, app acc tvs).
Proof.
  induction tvs as [|[t v] tvs IH]; intros acc H; cbn [map fold_left fst snd]; [now rewrite app_nil_r|].
  destruct (H (t, v) (or_introl eq_refl)) as [H1 [H2 H3]].
  rewrite jsdoc_tag_line by assumption. rewrite IH, <- app_assoc; [reflexivity|].
  intros tv Htv. apply H. now right.
Qed.

Lemma detect_word (c w : string) :
  In w ["auth"; "jwt"; "token"; "passport"] ->
  includes (toLowerCase c) w = true ->
  existsb (fun pattern => ContentScan.test pattern c)
    [ContentScan.ilit "auth"; ContentScan.ilit "jwt"; ContentScan.ilit "token";
     ContentScan.ilit "authenticate"; ContentScan.ilit "passport"; ContentScan.lit "req.user";
     ContentScan.ilit "authorization"] = true.
Proof.
  intros Hw H. destruct (includes_split _ _ H) as [a [b Hab]].
  destruct (toLowerCase_split c a (w ++ b) Hab) as [a' [wb [-> [_ Hwb]]]].
  destruct (toLowerCase_split wb w b Hwb) as [w' [b' [-> [Hw' _]]]].
  apply existsb_exists. exists (ContentScan.ilit w). split.
  - simpl. destruct Hw as [<-|[<-|[<-|[<-|[]]]]]; tauto.
  - apply (test_at _ a' (w' ++ b') b'). apply matches_ilit.
    rewrite Hw'. destruct Hw as [<-|[<-|[<-|[<-|[]]]]]; reflexivity.
Qed.

Lemma first_index_app_in (x : string) (l m : list string) :
  In x l -> first_index x (app l m) = first_index x l.
Proof.
  induction l as [|y l IH]; simpl; [intros []|].
  intros [<-|H]; [now rewrite String.eqb_refl|].
  destruct (String.eqb x y); [reflexivity|now rewrite IH].
Qed.

Lemma first_index_lt (x : string) (l : list string) : In x l -> first_index x l < List.length l.
Proof.
  induction l as [|y l IH]; simpl; [intros []|].
  intros [<-|H]; [rewrite String.eqb_refl; lia|].
  destruct (String.eqb x y); [lia|]. specialize (IH H). lia.
Qed.

Lemma first_index_last (x : string) (l : list string) :
  ~ In x l -> first_index x (app l [x]) = List.length l.
Proof.
  induction l as [|y l IH]; simpl; [now rewrite String.eqb_refl|].
  intros H. destruct (String.eqb_spec x y) as [->|_]; [exfalso; apply H; now left|].
  rewrite IH; [reflexivity|]. intros Hi. apply H. now right.
Qed.

Lemma StronglySorted_weaken {A} (R R' : A -> A -> Prop) (l : list A) :
  (forall a b, In a l -> In b l -> R a b -> R' a b) -> StronglySorted R l -> StronglySorted R' l.
Proof.
  induction l as [|a l IH]; intros HR H; [constructor|].
  inversion H as [|? ? Hs Hf]; subst. constructor.
  - apply IH; [intros x y Hx Hy; apply HR; now right|exact Hs].
  - apply Forall_forall. intros y Hy. apply HR; [now left|now right|].
    exact (proj1 (Forall_forall _ _) Hf y Hy).
Qed.

Lemma StronglySorted_snoc {A} (R : A -> A -> Prop) (l : list A) (x : A) :
  StronglySorted R l -> (forall a, In a l -> R a x) -> StronglySorted R (app l [x]).
Proof.
  induction l as [|a l IH]; intros H Hx; simpl.
  - repeat constructor.
  - inversion H as [|? ? Hs Hf]; subst. constructor.
    + apply IH; [exact Hs|intros y Hy; apply Hx; now right].
    + apply Forall_app. split; [exact Hf|]. constructor; [apply Hx; now left|constructor].
Qed.

Lemma brace_fold_sorted (ps : list param) (bs : list string) :
  exists zs,
    map p_name (fold_left (fun ps name =>
               if existsb (fun p => String.eqb (p_name p) name) ps then ps
               else app ps [path_param name]) bs ps) = app (map p_name ps) zs /\
    (forall z, In z zs -> In z bs) /\
    (forall b, In b bs -> In b (app (map p_name ps) zs)) /\
    StronglySorted (fun a b => first_index a bs < first_index b bs) zs.
Proof.
  induction bs as [|b bs IH] using rev_ind.
  - exists []. rewrite app_nil_r. repeat split; [intros z []|intros z []|constructor].
  - destruct IH as [zs [H1 [H2 [H3 H4]]]]. rewrite fold_left_app. simpl.
    set (F := fold_left _ bs ps) in *.
    assert (Hsub : forall z, In z zs -> first_index z (app bs [b]) = first_index z bs)
      by (intros z Hz; apply first_index_app_in, H2, Hz).
    destruct (existsb (fun p => String.eqb (p_name p) b) F) eqn:E.
    + exists zs. split; [exact H1|split; [|split]].
      * intros z Hz. apply in_app_iff. left. exact (H2 z Hz).
      * intros b' Hb'. apply in_app_iff in Hb'. destruct Hb' as [Hb'|[<-|[]]]; [exact (H3 b' Hb')|].
        apply existsb_exists in E. destruct E as [p [Hp Hq]]. apply String.eqb_eq in Hq.
        rewrite <- H1, <- Hq. now apply in_map.
      * apply (StronglySorted_weaken (fun a b => first_index a bs < first_index b bs) _ zs); [|exact H4].
        intros a c Ha Hc. rewrite (Hsub a Ha), (Hsub c Hc). exact (fun h => h).
    + assert (Hnb : ~ In b (app (map p_name ps) zs)).
      { rewrite <- H1. intros Hin. apply in_map_iff in Hin. destruct Hin as [p [Hp Hin]].
        assert (Hx : existsb (fun p => String.eqb (p_name p) b) F = true)
          by (apply existsb_exists; exists p; split; [exact Hin|now apply String.eqb_eq]).
        congruence. }
      assert (Hbs : ~ In b bs) by (intros Hb; exact (Hnb (H3 b Hb))).
      exists (app zs [b]). split; [|split; [|split]].
      * rewrite map_app, H1, <- app_assoc. reflexivity.
      * intros z Hz. apply in_app_iff in Hz. apply in_app_iff.
        destruct Hz as [Hz|[<-|[]]]; [left; exact (H2 z Hz)|right; now left].
      * intros b' Hb'. rewrite app_assoc. apply in_app_iff.
        apply in_app_iff in Hb'. destruct Hb' as [Hb'|[<-|[]]]; [left; exact (H3 b' Hb')|right; now left].
      * apply StronglySorted_snoc.
        -- apply (StronglySorted_weaken (fun a b => first_index a bs < first_index b bs) _ zs); [|exact H4].
           intros a c Ha Hc. rewrite (Hsub a Ha), (Hsub c Hc). exact (fun h => h).
        -- intros a Ha. rewrite (Hsub a Ha), (first_index_last b bs Hbs).
           apply first_index_lt, H2, Ha.
Qed.

End EnhancedParserProofs.

(** Extra: for two routes with the same lower-cased method, [generateRouteId]
    gives the same id exactly when their paths have the same length and, at
    each position, the same character or two characters outside
    [[a-zA-Z0-9]]: [/user-profile] and [/user_profile] share an id. *)
Theorem generateRouteId_same_id (r1 r2 : Parser.route) :
  toLowerCase (Parser.method r1) = toLowerCase (Parser.method r2) ->
  (EnhancedParser.generateRouteId r1 = EnhancedParser.generateRouteId r2 <->
   Forall2 (fun a b => a = b \/ (EnhancedParser.is_alnum a = false /\ EnhancedParser.is_alnum b = false))
     (list_ascii_of_string (Parser.path r1)) (list_ascii_of_string (Parser.path r2))).
Proof.
  intros Hm. unfold EnhancedParser.generateRouteId. rewrite Hm, <- replace_non_alnum_eq. split.
  - intros E. apply (string_app_inv_head (toLowerCase (Parser.method r2) ++ "_")).
    rewrite !string_app_assoc. exact E.
  - intros ->. reflexivity.
Qed.

Lemma generateRouteId_same_id_witness :
  toLowerCase (Parser.method (Inputs.simple_route "GET" "/user-profile")) =
    toLowerCase (Parser.method (Inputs.simple_route "GET" "/user_profile")) /\
  (EnhancedParser.generateRouteId (Inputs.simple_route "GET" "/user-profile") =
     EnhancedParser.generateRouteId (Inputs.simple_route "GET" "/user_profile") <->
   Forall2 (fun a b => a = b \/ (EnhancedParser.is_alnum a = false /\ EnhancedParser.is_alnum b = false))
     (list_ascii_of_string (Parser.path (Inputs.simple_route "GET" "/user-profile")))
     (list_ascii_of_string (Parser.path (Inputs.simple_route "GET" "/user_profile")))).
Proof. split; [reflexivity|]. apply generateRouteId_same_id. reflexivity. Defined.

(** Extra: on a path without [{], the [extractParameters] of
    [src/src/generator] returns the same parameters as the one of
    [src/src/parser]. *)
Theorem enhanced_extractParameters_brace_free (p : string) :
  TextShape.free_of "{"%char p -> EnhancedParser.extractParameters p = Parser.extractParameters p.
Proof.
  intros H. unfold EnhancedParser.extractParameters. rewrite brace_matches_free by exact H. reflexivity.
Qed.

Lemma enhanced_extractParameters_brace_free_witness :
  EnhancedParser.extractParameters "/users/:userId/posts/:postId" =
  Parser.extractParameters "/users/:userId/posts/:postId".
Proof.
  apply enhanced_extractParameters_brace_free.
  intros x Hx. simpl in Hx. intuition (subst; discriminate).
Defined.

(** Extra: the [extractParameters] of [src/src/generator] lists the [:name]
    parameters first, then each [{name}] parameter whose name is not already
    listed, once, in order of first occurrence in the path: the added names
    are distinct, are [{name}] names that are not [:name] names, are sorted
    by the position of their first [{name}] match, and together with the
    [:name] parameters name every [{name}] of the path. *)
Theorem enhanced_extractParameters_braces (p : string) :
  exists zs,
    map Parser.p_name (EnhancedParser.extractParameters p) = app (Parser.colon_matches Parser.MOut p) zs /\
    NoDup zs /\
    (forall z, In z zs -> ~ In z (Parser.colon_matches Parser.MOut p) /\
                         In z (EnhancedParser.brace_matches EnhancedParser.BOut p)) /\
    StronglySorted (fun a b => TextShape.first_index a (EnhancedParser.brace_matches EnhancedParser.BOut p) <
                               TextShape.first_index b (EnhancedParser.brace_matches EnhancedParser.BOut p)) zs /\
    (forall b, In b (EnhancedParser.brace_matches EnhancedParser.BOut p) ->
               In b (map Parser.p_name (EnhancedParser.extractParameters p))).
Proof.
  unfold EnhancedParser.extractParameters.
  destruct (brace_fold (EnhancedParser.brace_matches EnhancedParser.BOut p)
              (map EnhancedParser.path_param (Parser.colon_matches Parser.MOut p))) as [zs [H1 [H2 [H3 H4]]]].
  destruct (brace_fold_sorted (map EnhancedParser.path_param (Parser.colon_matches Parser.MOut p))
              (EnhancedParser.brace_matches EnhancedParser.BOut p)) as [zs' [H1' [_ [_ H4']]]].
  assert (Hn : map Parser.p_name (map EnhancedParser.path_param (Parser.colon_matches Parser.MOut p)) =
               Parser.colon_matches Parser.MOut p) by (rewrite map_map; apply map_id).
  rewrite Hn in H1, H3, H4, H1'.
  assert (Hz : zs' = zs) by (rewrite H1 in H1'; exact (app_inv_head _ _ _ (eq_sym H1'))).
  subst zs'. exists zs. rewrite H1.
  split; [reflexivity|split; [exact H2|split; [exact H3|split; [exact H4'|exact H4]]]].
Qed.

(** Extra: JSDoc comment lines [@tag value] (a tag without space, a
    non-empty value without trailing white space, neither with a line break)
    are parsed back to exactly these tags and values, in order, with an empty
    description and summary. *)
Theorem parseJSDocComments_tag_lines (tvs : list (string * string)) :
  (forall tv, In tv tvs ->
     TextShape.free_of " "%char (fst tv) /\ TextShape.free_of "010"%char (fst tv) /\
     TextShape.free_of "010"%char (snd tv) /\ snd tv <> EmptyString /\
     TextShape.lead_ok (string_rev (snd tv))) ->
  EnhancedParser.parseJSDocComments
    (concat_with (String "010" EmptyString) (map (fun tv => ("@" ++ fst tv ++ " " ++ snd tv)%string) tvs)) =
  {| EnhancedParser.summary := EmptyString; EnhancedParser.description := EmptyString;
     EnhancedParser.tags := tvs |}.
Proof.
  intros H. destruct tvs as [|tv tvs']; [reflexivity|].
  unfold EnhancedParser.parseJSDocComments.
  rewrite split_concat_with.
  - rewrite jsdoc_tag_lines; [reflexivity|].
    intros x Hx. destruct (H x Hx) as [H1 [_ [_ [H4 H5]]]]. tauto.
  - discriminate.
  - intros l Hl. apply in_map_iff in Hl. destruct Hl as [x [<- Hx]].
    destruct (H x Hx) as [_ [H2 [H3 _]]]. apply tag_line_free; assumption.
Qed.

Lemma parseJSDocComments_tag_lines_witness :
  EnhancedParser.parseJSDocComments
    (concat_with (String "010" EmptyString)
       (map (fun tv => ("@" ++ fst tv ++ " " ++ snd tv)%string)
          [("param", "id  the user id"); ("returns", "{User} the user")])) =
  {| EnhancedParser.summary := EmptyString; EnhancedParser.description := EmptyString;
     EnhancedParser.tags := [("param", "id  the user id"); ("returns", "{User} the user")] |}.
Proof.
  apply parseJSDocComments_tag_lines.
  intros tv Htv. simpl in Htv.
  destruct Htv as [<-|[<-|[]]]; simpl;
    (split; [intros x Hx; simpl in Hx; intuition (subst; discriminate)|]);
    (split; [intros x Hx; simpl in Hx; intuition (subst; discriminate)|]);
    (split; [intros x Hx; simpl in Hx; intuition (subst; discriminate)|]);
    (split; [discriminate|reflexivity]).
Defined.

(** Extra: [detectAuthentication] flags every file whose content contains
    [auth], [jwt], [token] or [passport] in any case, whatever the route:
    a file mentioning an [author] field counts as having authentication. *)
Theorem detectAuthentication_words (r : Parser.route) (content w : string) :
  In w ["auth"; "jwt"; "token"; "passport"]%string ->
  includes (toLowerCase content) w = true ->
  EnhancedParser.detectAuthentication r content = true.
Proof. intros Hw H. exact (detect_word content w Hw H). Qed.

Lemma detectAuthentication_words_witness :
  EnhancedParser.detectAuthentication Inputs.users_get_route
    "router.get('/books', (req, res) => res.json(books.map(b => b.author)));" = true.
Proof. apply (detectAuthentication_words _ _ "auth"); [simpl; tauto|vm_compute; reflexivity]. Defined.
